(** * Risk-validation engine: a shallow embedding and its verification

    The development embeds the risk-validation core of the repository
    ([src/backtests.py], [src/risk_metrics.py], [src/stress_tests.py]) and
    proves the properties its specification states about it.

    Numeric model.  Python [int]s are [Z].  A Python/NumPy float is a
    [float]: [NaN], a signed infinity, or a finite value carried as an exact
    real number.  The special values follow IEEE-754; finite arithmetic is
    exact (rounding, overflow and the sign of zero are outside the model,
    a zero divisor is taken as [+0]).  [np.log] is the real logarithm [ln].
    The SciPy distribution functions are an interface ([SciPy]). *)

From Stdlib Require Import String Reals Lra Lia ZArith Bool List Classical_Prop.
Import ListNotations.

Set Implicit Arguments.

(* ------------------------------------------------------------------ *)
(** ** Python: exceptions and results *)

Module Py.

Inductive exn : Type :=
| ZeroDivisionError
| ValueError (msg : string)
| KeyError.

Inductive result (A : Type) : Type :=
| Ok (a : A)
| Raise (e : exn).

Arguments Ok {A} a.
Arguments Raise {A} e.

Definition bind {A B : Type} (m : result A) (k : A -> result B) : result B :=
  match m with
  | Ok a => k a
  | Raise e => Raise e
  end.


Definition returns {A : Type} (m : result A) : Prop :=
  exists a, m = Ok a.

(** [range(lo, hi)] *)
Definition range (lo hi : Z) : list Z :=
  map (fun k => (lo + Z.of_nat k)%Z) (seq 0 (Z.to_nat (hi - lo))).

(** The bounds of a slice [l[a:b]] on a sequence of length [n]: a negative
    bound counts from the end, and both are clipped to [0, n]. *)
Definition clip (n i : Z) : Z :=
  if (i <? 0)%Z then Z.max 0 (n + i) else Z.min i n.

Definition slice {A : Type} (l : list A) (a b : Z) : list A :=
  let n := Z.of_nat (length l) in
  let lo := clip n a in
  let hi := clip n b in
  firstn (Z.to_nat (hi - lo)) (skipn (Z.to_nat lo) l).

(** [l[a:]] *)
Definition slice_from {A : Type} (l : list A) (a : Z) : list A :=
  skipn (Z.to_nat (clip (Z.of_nat (length l)) a)) l.

(** True division of two Python [int]s. *)
Definition int_truediv (a b : Z) : result R :=
  if (b =? 0)%Z then Raise ZeroDivisionError else Ok (IZR a / IZR b)%R.

End Py.

Notation "x <- m ;; k" := (Py.bind m (fun x => k))
  (at level 61, m at next level, right associativity).

(* ------------------------------------------------------------------ *)
(** ** Floats *)

Module Float.

Open Scope R_scope.

Inductive float : Type :=
| NaN
| Inf (neg : bool)
| Fin (r : R).

Definition Rltb (x y : R) : bool := if Rlt_dec x y then true else false.
Definition Reqb (x y : R) : bool := if Req_dec_T x y then true else false.

Definition is_nan (a : float) : bool :=
  match a with NaN => true | _ => false end.

Definition is_finite (a : float) : bool :=
  match a with Fin _ => true | _ => false end.

Definition neg (a : float) : float :=
  match a with
  | NaN => NaN
  | Inf s => Inf (negb s)
  | Fin r => Fin (- r)
  end.

Definition add (a b : float) : float :=
  match a, b with
  | NaN, _ | _, NaN => NaN
  | Inf s, Inf s' => if Bool.eqb s s' then Inf s else NaN
  | Inf s, Fin _ => Inf s
  | Fin _, Inf s => Inf s
  | Fin x, Fin y => Fin (x + y)
  end.

Definition sub (a b : float) : float := add a (neg b).

Definition mul (a b : float) : float :=
  match a, b with
  | NaN, _ | _, NaN => NaN
  | Inf s, Inf s' => Inf (xorb s s')
  | Inf s, Fin y => if Reqb y 0 then NaN else Inf (xorb s (Rltb y 0))
  | Fin x, Inf s => if Reqb x 0 then NaN else Inf (xorb (Rltb x 0) s)
  | Fin x, Fin y => Fin (x * y)
  end.

(** NumPy division: a zero divisor gives an infinity or [NaN], never an
    exception. *)
Definition div (a b : float) : float :=
  match a, b with
  | NaN, _ | _, NaN => NaN
  | Inf _, Inf _ => NaN
  | Inf s, Fin y => Inf (xorb s (Rltb y 0))
  | Fin _, Inf _ => Fin 0
  | Fin x, Fin y =>
      if Reqb y 0 then (if Reqb x 0 then NaN else Inf (Rltb x 0))
      else Fin (x / y)
  end.

(** [np.log] *)
Definition log (a : float) : float :=
  match a with
  | NaN => NaN
  | Inf false => Inf false
  | Inf true => NaN
  | Fin x => if Rltb 0 x then Fin (ln x)
             else if Reqb x 0 then Inf true else NaN
  end.

(** [np.sqrt] *)
Definition fsqrt (a : float) : float :=
  match a with
  | NaN => NaN
  | Inf false => Inf false
  | Inf true => NaN
  | Fin x => if Rltb x 0 then NaN else Fin (sqrt x)
  end.

(** [a < b]; false as soon as one side is [NaN]. *)
Definition ltb (a b : float) : bool :=
  match a, b with
  | NaN, _ | _, NaN => false
  | Inf s, Inf s' => s && negb s'
  | Inf s, Fin _ => s
  | Fin _, Inf s => negb s
  | Fin x, Fin y => Rltb x y
  end.

Definition lt (a b : float) : Prop := ltb a b = true.

Definition fmin (a b : float) : float := if ltb b a then b else a.

Definition of_Z (n : Z) : float := Fin (IZR n).
Definition of_nat (n : nat) : float := Fin (INR n).

Declare Scope float_scope.
Delimit Scope float_scope with float.
Bind Scope float_scope with float.
Infix "+" := add : float_scope.
Infix "-" := sub : float_scope.
Infix "*" := mul : float_scope.
Infix "/" := div : float_scope.
Notation "- x" := (neg x) : float_scope.

End Float.

(* ------------------------------------------------------------------ *)
(** ** pandas: time-indexed series

    A [Series] is the ordered sequence of its (timestamp, value) pairs;
    timestamps are integers (an ordinal of the date). *)

Module Pandas.

Import Float.

Definition Series (A : Type) : Type := list (Z * A).

Definition index {A : Type} (s : Series A) : list Z := map fst s.
Definition values {A : Type} (s : Series A) : list A := map snd s.

(** The index of a Return Series: strictly increasing timestamps. *)
Fixpoint increasing (ts : list Z) : Prop :=
  match ts with
  | [] => True
  | t :: rest =>
      match rest with
      | [] => True
      | t' :: _ => (t < t')%Z /\ increasing rest
      end
  end.

(** [s.astype(int)] on a boolean series *)
Definition astype_int (s : Series bool) : list Z :=
  map (fun b : bool => if b then 1%Z else 0%Z) (values s).

(** [.sum()] of integers *)
Definition sum_int (l : list Z) : Z := fold_left Z.add l 0%Z.

(** [.sum()] of a boolean series: the number of [True]s. *)
Definition sum_bool (l : list bool) : Z :=
  sum_int (map (fun b : bool => if b then 1%Z else 0%Z) l).

(** [.mean()] of a boolean series; [NaN] on an empty one. *)
Definition mean_bool (l : list bool) : float :=
  match l with
  | [] => NaN
  | _ => Fin (IZR (sum_bool l) / INR (length l))
  end.

(** The reductions skip [NaN] entries ([skipna=True]). *)
Definition dropna (l : list float) : list float :=
  filter (fun a => negb (is_nan a)) l.

(** [.sum()]: 0 on an empty series. *)
Definition fsum (l : list float) : float :=
  fold_left add (dropna l) (Fin 0).

(** [.min()]: [NaN] on an empty series. *)
Definition min (l : list float) : float :=
  match dropna l with
  | [] => NaN
  | a :: rest => fold_left fmin rest a
  end.

(** [.mean()]: [NaN] on an empty series. *)
Definition mean (l : list float) : float :=
  match dropna l with
  | [] => NaN
  | _ => (fsum l / of_nat (length (dropna l)))%float
  end.

(** [.std()] with the default [ddof=1]: [NaN] below two observations. *)
Definition std (l : list float) : float :=
  let v := dropna l in
  let count := length v in
  if (count <=? 1)%nat then NaN
  else
    let avg := (fsum v / of_nat count)%float in
    let sqr := map (fun a => ((avg - a) * (avg - a))%float) v in
    fsqrt (fold_left add sqr (Fin 0) / of_nat (count - 1))%float.

(** [s * c] for a scalar [c] *)
Definition mul_scalar (s : Series float) (c : float) : Series float :=
  map (fun tv => (fst tv, (snd tv * c)%float)) s.

(** [c * s] for a scalar [c] *)
Definition scalar_mul (c : float) (s : Series float) : Series float :=
  map (fun tv => (fst tv, (c * snd tv)%float)) s.

(** [-s] *)
Definition neg_series (s : Series float) : Series float :=
  map (fun tv => (fst tv, (- snd tv)%float)) s.

(** The rows of [s] that carry the label [t], in the order of [s]. *)
Definition rows {A : Type} (t : Z) (s : Series A) : Series A :=
  filter (fun tv => (fst tv =? t)%Z) s.

(** [s.loc[labels]]: for each label in turn, every row of [s] that carries
    it (a repeated timestamp of [s] gives several rows); a label that is
    not in the index is a [KeyError]. *)
Fixpoint loc {A : Type} (s : Series A) (labels : list Z)
  : Py.result (Series A) :=
  match labels with
  | [] => Py.Ok []
  | t :: rest =>
      match rows t s with
      | [] => Py.Raise Py.KeyError
      | found => tl <- loc s rest ;; Py.Ok (found ++ tl)
      end
  end.

(** [s.loc[start:end]] on an increasing index: both ends inclusive. *)
Definition loc_slice {A : Type} (s : Series A) (start stop : Z) : Series A :=
  filter (fun tv => (start <=? fst tv)%Z && (fst tv <=? stop)%Z) s.

(** [a < b] on two series: the indexes have to be identical. *)
Definition lt_series (a b : Series float) : Py.result (Series bool) :=
  if list_eq_dec Z.eq_dec (index a) (index b)
  then Py.Ok (map (fun p => (fst (fst p), ltb (snd (fst p)) (snd (snd p))))
                  (combine a b))
  else Py.Raise
         (Py.ValueError "Can only compare identically-labeled Series objects").

(** [pd.Series(data, index=idx)] *)
Definition make {A : Type} (data : list A) (idx : list Z)
  : Py.result (Series A) :=
  if (length data =? length idx)%nat then Py.Ok (combine idx data)
  else Py.Raise
         (Py.ValueError "Length of values does not match length of index").

End Pandas.

(* ------------------------------------------------------------------ *)
(** ** scipy.stats: the distribution functions the engine calls *)

Class SciPy : Type := {
  norm_ppf : Float.float -> Float.float;
  norm_pdf : Float.float -> Float.float;
  t_ppf : Float.float -> Float.float -> Float.float;
  t_pdf : Float.float -> Float.float -> Float.float;
  chi2_cdf : Float.float -> Z -> Float.float
}.

(* ------------------------------------------------------------------ *)
(** ** src/backtests.py *)

Module Backtests.

Import Float Pandas.

Section WithSciPy.

Context {scipy : SciPy}.

Record kupiec_result : Type := {
  k_LR_stat : float;
  k_p_value : float;
  k_breaches : Z;
  k_expected : float
}.

Definition kupiec_pof_test (breaches : Series bool) (alpha : float)
  : kupiec_result :=
  let breaches := astype_int breaches in
  let T := Z.of_nat (length breaches) in
  let x := sum_int breaches in
  let p := (Fin 1 - alpha)%float in
  if (x =? 0)%Z || (x =? T)%Z then
    {| k_LR_stat := NaN;
       k_p_value := NaN;
       k_breaches := x;
       k_expected := (of_Z T * p)%float |}
  else
    let LR :=
      (Fin (-2) *
       (of_Z (T - x) * log (Fin 1 - p) + of_Z x * log p
        - (of_Z (T - x) * log (Fin 1 - of_Z x / of_Z T)
           + of_Z x * log (of_Z x / of_Z T))))%float in
    {| k_LR_stat := LR;
       k_p_value := (Fin 1 - chi2_cdf LR 1)%float;
       k_breaches := x;
       k_expected := (of_Z T * p)%float |}.

Record counts : Type := {
  n00 : Z;
  n01 : Z;
  n10 : Z;
  n11 : Z
}.

Definition no_counts : counts := {| n00 := 0; n01 := 0; n10 := 0; n11 := 0 |}.

(** The body of the scanning loop: the [if]/[elif] chain on
    [(prev, curr)]. *)
Definition count_pair (c : counts) (prev curr : Z) : counts :=
  if (prev =? 0)%Z && (curr =? 0)%Z then
    {| n00 := n00 c + 1; n01 := n01 c; n10 := n10 c; n11 := n11 c |}
  else if (prev =? 0)%Z && (curr =? 1)%Z then
    {| n00 := n00 c; n01 := n01 c + 1; n10 := n10 c; n11 := n11 c |}
  else if (prev =? 1)%Z && (curr =? 0)%Z then
    {| n00 := n00 c; n01 := n01 c; n10 := n10 c + 1; n11 := n11 c |}
  else if (prev =? 1)%Z && (curr =? 1)%Z then
    {| n00 := n00 c; n01 := n01 c; n10 := n10 c; n11 := n11 c + 1 |}
  else c.

(** [for i in range(1, len(breaches))] *)
Definition transition_counts (breaches : list Z) : counts :=
  fold_left
    (fun c i =>
       let prev := nth (Z.to_nat (i - 1)) breaches 0%Z in
       let curr := nth (Z.to_nat i) breaches 0%Z in
       count_pair c prev curr)
    (Py.range 1 (Z.of_nat (length breaches)))
    no_counts.

Definition safe_log (x : R) : R :=
  if Rltb 0 x then ln x else 0%R.

Record christoffersen_result : Type := {
  c_LR_stat : float;
  c_p_value : float
}.

Definition christoffersen_test (breaches : Series bool)
  : Py.result christoffersen_result :=
  let breaches := astype_int breaches in
  let c := transition_counts breaches in
  pi0 <- (if (n00 c + n01 c >? 0)%Z
          then Py.int_truediv (n01 c) (n00 c + n01 c) else Py.Ok 0%R) ;;
  pi1 <- (if (n10 c + n11 c >? 0)%Z
          then Py.int_truediv (n11 c) (n10 c + n11 c) else Py.Ok 0%R) ;;
  pi <- Py.int_truediv (n01 c + n11 c) (n00 c + n01 c + n10 c + n11 c) ;;
  let L0 :=
    (IZR (n00 c + n10 c) * safe_log (1 - pi)
     + IZR (n01 c + n11 c) * safe_log pi)%R in
  let L1 :=
    (IZR (n00 c) * safe_log (1 - pi0)
     + IZR (n01 c) * safe_log pi0
     + IZR (n10 c) * safe_log (1 - pi1)
     + IZR (n11 c) * safe_log pi1)%R in
  let LR := (-2 * (L0 - L1))%R in
  Py.Ok {| c_LR_stat := Fin LR;
           c_p_value := (Fin 1 - chi2_cdf (Fin LR) 1)%float |}.

End WithSciPy.

Inductive status : Type := GREEN | YELLOW | RED.

Definition classify (window_breaches : Z) : status :=
  if (window_breaches <=? 4)%Z then GREEN
  else if (window_breaches <=? 9)%Z then YELLOW
  else RED.

Definition rolling_basel_traffic_light (breaches : Series bool) (window : Z)
  : Py.result (Series status) :=
  let results :=
    map (fun i =>
           let window_breaches :=
             sum_bool (Py.slice (values breaches) (i - window) i) in
           classify window_breaches)
        (Py.range window (Z.of_nat (length breaches))) in
  make results (Py.slice_from (index breaches) window).

End Backtests.

(* ------------------------------------------------------------------ *)
(** ** src/risk_metrics.py *)

Module RiskMetrics.

Import Float Pandas.

Section WithSciPy.

Context {scipy : SciPy}.

Definition parametric_var_cvar
  (returns sigma : Series float) (alpha : float) (dist : string)
  (nu : option float)
  : Py.result (Series float * Series float * Series float) :=
  var_cvar <-
    (if String.eqb dist "normal" then
       let z := norm_ppf alpha in
       let var := scalar_mul z sigma in
       let cvar := scalar_mul (norm_pdf z / (Fin 1 - alpha))%float sigma in
       Py.Ok (var, cvar)
     else if String.eqb dist "t" then
       match nu with
       | None =>
           Py.Raise (Py.ValueError "nu must be provided for Student-t VaR")
       | Some nu =>
           let z := t_ppf alpha nu in
           let var := scalar_mul z sigma in
           (* [z ** 2] is [z * z] *)
           let cvar :=
             scalar_mul
               ((t_pdf z nu / (Fin 1 - alpha))
                * ((nu + z * z) / (nu - Fin 1)))%float
               sigma in
           Py.Ok (var, cvar)
       end
     else Py.Raise (Py.ValueError "dist must be 'normal' or 't'")) ;;
  aligned_returns <- loc returns (index sigma) ;;
  Py.Ok (aligned_returns, fst var_cvar, snd var_cvar).

End WithSciPy.

Definition var_breaches (returns var : Series float)
  : Py.result (Series bool * float) :=
  breaches <- lt_series returns (neg_series var) ;;
  let breach_rate := mean_bool (values breaches) in
  Py.Ok (breaches, breach_rate).

(** No operation of the calibrator raises: the quotient is a NumPy float
    division. *)
Definition calibrate_volatility (returns sigma : Series float)
  : Py.result (Series float) :=
  let scale := (std (values returns) / mean (values sigma))%float in
  Py.Ok (mul_scalar sigma scale).

End RiskMetrics.

(* ------------------------------------------------------------------ *)
(** ** src/stress_tests.py *)

Module StressTests.

Import Float Pandas.

Record stress_record : Type := {
  start : Z;
  stop : Z;
  days : Z;
  worst_day : float;
  cumulative_loss : float;
  avg_daily_loss : float
}.

Definition stress_test_period (returns : Series float) (start_ end_ : Z)
  : stress_record :=
  let stress_returns := loc_slice returns start_ end_ in
  {| start := start_;
     stop := end_;
     days := Z.of_nat (length stress_returns);
     worst_day := min (values stress_returns);
     cumulative_loss := fsum (values stress_returns);
     avg_daily_loss := mean (values stress_returns) |}.

End StressTests.

(* ------------------------------------------------------------------ *)
(** * Verification *)

Import Float Pandas Backtests RiskMetrics StressTests.

(** ** Lists, sums and slices *)

Section Sums.

Lemma sum_int_from (l : list Z) (a : Z) :
  fold_left Z.add l a = (a + sum_int l)%Z.
Proof.
  unfold sum_int. revert a.
  induction l as [|z l IH]; intros a; simpl.
  - lia.
  - rewrite IH, (IH z). lia.
Qed.

Lemma sum_int_cons (z : Z) (l : list Z) :
  sum_int (z :: l) = (z + sum_int l)%Z.
Proof. unfold sum_int at 1. simpl. now rewrite sum_int_from. Qed.

Lemma sum_bool_nil : sum_bool [] = 0%Z.
Proof. reflexivity. Qed.

Lemma sum_bool_cons (b : bool) (l : list bool) :
  sum_bool (b :: l) = ((if b then 1 else 0) + sum_bool l)%Z.
Proof. unfold sum_bool. simpl map. apply sum_int_cons. Qed.

Lemma sum_bool_bounds (l : list bool) :
  (0 <= sum_bool l <= Z.of_nat (length l))%Z.
Proof.
  induction l as [|b l IH].
  - rewrite sum_bool_nil. simpl. lia.
  - rewrite sum_bool_cons. cbn [length]. destruct b; lia.
Qed.

Lemma sum_bool_app (l l' : list bool) :
  sum_bool (l ++ l') = (sum_bool l + sum_bool l')%Z.
Proof.
  induction l as [|b l IH]; cbn [app].
  - rewrite sum_bool_nil. lia.
  - rewrite !sum_bool_cons, IH. lia.
Qed.

Lemma astype_int_sum (s : Series bool) :
  sum_int (astype_int s) = sum_bool (values s).
Proof. reflexivity. Qed.

Lemma astype_int_length (s : Series bool) :
  length (astype_int s) = length s.
Proof. unfold astype_int, values. now rewrite !length_map. Qed.

Lemma values_length {A : Type} (s : Series A) : length (values s) = length s.
Proof. apply length_map. Qed.

Lemma index_length {A : Type} (s : Series A) : length (index s) = length s.
Proof. apply length_map. Qed.

End Sums.

(** ** Kupiec proportion-of-failures test *)

Section Kupiec.

Context {scipy : SciPy}.

(** C1.  When the breach count [x] is 0 or equals the sample length [T], the
    Kupiec test returns the record with [NaN] statistic, [NaN] p-value,
    observed count [x] and expected count [T * (1 - alpha)].  The record
    mentions neither a logarithm nor the chi-squared distribution: the
    likelihood ratio is not computed. *)
Theorem kupiec_degenerate_sample (breaches : Series bool) (alpha : float) :
  let T := Z.of_nat (length breaches) in
  let x := sum_bool (values breaches) in
  x = 0%Z \/ x = T ->
  kupiec_pof_test breaches alpha =
  {| k_LR_stat := NaN;
     k_p_value := NaN;
     k_breaches := x;
     k_expected := (of_Z T * (Fin 1 - alpha))%float |}.
Proof.
  intros T x Hx. unfold kupiec_pof_test.
  rewrite astype_int_sum, astype_int_length.
  fold T x.
  assert (Hc : ((x =? 0)%Z || (x =? T)%Z) = true).
  { apply orb_true_iff. destruct Hx as [Hx|Hx]; [left|right];
      now apply Z.eqb_eq. }
  now rewrite Hc.
Qed.

End Kupiec.

(** ** Christoffersen independence test *)

(** The adjacent (previous, current) pairs of a sequence; the first
    observation has no predecessor and opens no pair. *)
Definition adjacent_pairs {A : Type} (l : list A) : list (A * A) :=
  combine l (tl l).

(** The number of adjacent pairs equal to [(p, q)]. *)
Definition count_transitions (p q : bool) (bs : list bool) : nat :=
  length (filter (fun pq => Bool.eqb (fst pq) p && Bool.eqb (snd pq) q)
                 (adjacent_pairs bs)).

Definition bool_to_Z (b : bool) : Z := if b then 1%Z else 0%Z.

Section Scan.

Variable A : Type.
Variable d : A.

Lemma combine_nth_seq (u v : list A) :
  (length v <= length u)%nat ->
  combine u v = map (fun k => (nth k u d, nth k v d)) (seq 0 (length v)).
Proof.
  revert v. induction u as [|x u IH]; intros [|y v] Hlen; simpl in *;
    try reflexivity; try lia.
  f_equal. rewrite <- seq_shift, map_map. apply IH. lia.
Qed.

Lemma adjacent_pairs_nth (l : list A) :
  adjacent_pairs l =
  map (fun k => (nth k l d, nth (S k) l d)) (seq 0 (length l - 1)).
Proof.
  unfold adjacent_pairs. destruct l as [|x l]; [reflexivity|].
  cbn [tl length]. replace (S (length l) - 1)%nat with (length l) by lia.
  rewrite (combine_nth_seq (x :: l) l) by (simpl; lia).
  apply map_ext. intros k. reflexivity.
Qed.

End Scan.

Lemma adjacent_pairs_length {A : Type} (l : list A) :
  length (adjacent_pairs l) = (length l - 1)%nat.
Proof.
  unfold adjacent_pairs. rewrite length_combine.
  destruct l; cbn [length tl]; lia.
Qed.

Lemma range_from_1 (n : nat) :
  Py.range 1 (Z.of_nat n) =
  map (fun k => Z.of_nat (S k)) (seq 0 (n - 1)).
Proof.
  unfold Py.range.
  replace (Z.to_nat (Z.of_nat n - 1)) with (n - 1)%nat by lia.
  apply map_ext. intros k. lia.
Qed.

Lemma fold_left_map {A B C : Type} (f : A -> C -> A) (g : B -> C)
  (l : list B) (a : A) :
  fold_left f (map g l) a = fold_left (fun acc b => f acc (g b)) l a.
Proof. revert a. induction l as [|b l IH]; intros a; simpl; auto. Qed.

Lemma fold_left_ext_in {A B : Type} (f g : A -> B -> A) (l : list B) (a : A) :
  (forall acc b, In b l -> f acc b = g acc b) ->
  fold_left f l a = fold_left g l a.
Proof.
  revert a. induction l as [|b l IH]; intros a H; simpl; [reflexivity|].
  rewrite H by (now left). apply IH. intros; apply H; now right.
Qed.

(** The index loop of the source visits exactly the adjacent pairs. *)
Lemma transition_counts_scan (l : list Z) :
  transition_counts l =
  fold_left (fun c pq => count_pair c (fst pq) (snd pq))
            (adjacent_pairs l) no_counts.
Proof.
  unfold transition_counts.
  rewrite range_from_1, (adjacent_pairs_nth 0%Z), !fold_left_map.
  apply fold_left_ext_in. intros c k _. cbn [fst snd].
  replace (Z.to_nat (Z.of_nat (S k) - 1)) with k by lia.
  now rewrite Nat2Z.id.
Qed.

Definition add_counts (c : counts) (bs : list (bool * bool)) : counts :=
  let n p q :=
    Z.of_nat (length (filter (fun pq => Bool.eqb (fst pq) p
                                        && Bool.eqb (snd pq) q) bs)) in
  {| n00 := n00 c + n false false;
     n01 := n01 c + n false true;
     n10 := n10 c + n true false;
     n11 := n11 c + n true true |}.

Lemma counts_eq (c c' : counts) :
  n00 c = n00 c' -> n01 c = n01 c' -> n10 c = n10 c' -> n11 c = n11 c' ->
  c = c'.
Proof. destruct c, c'; simpl; intros; subst; reflexivity. Qed.

Lemma fold_count_pair (bs : list (bool * bool)) (c : counts) :
  fold_left (fun c pq => count_pair c (fst pq) (snd pq))
            (map (fun pq => (bool_to_Z (fst pq), bool_to_Z (snd pq))) bs) c =
  add_counts c bs.
Proof.
  revert c. induction bs as [|[p q] bs IH]; intros c.
  - apply counts_eq; simpl; lia.
  - cbn [map fold_left fst snd]. rewrite IH.
    destruct p, q; apply counts_eq; cbn; lia.
Qed.

Lemma adjacent_pairs_map {A B : Type} (f : A -> B) (l : list A) :
  adjacent_pairs (map f l) =
  map (fun pq => (f (fst pq), f (snd pq))) (adjacent_pairs l).
Proof.
  unfold adjacent_pairs.
  assert (H : forall u v : list A,
             combine (map f u) (map f v) =
             map (fun pq => (f (fst pq), f (snd pq))) (combine u v)).
  { induction u as [|x u IH]; intros [|y v]; simpl; try reflexivity.
    now rewrite IH. }
  destruct l as [|x l]; [reflexivity|]. apply (H (x :: l) l).
Qed.

(** The four counters after the scan are the numbers of adjacent pairs of
    each kind. *)
Lemma transition_counts_spec (s : Series bool) :
  transition_counts (astype_int s) =
  {| n00 := Z.of_nat (count_transitions false false (values s));
     n01 := Z.of_nat (count_transitions false true (values s));
     n10 := Z.of_nat (count_transitions true false (values s));
     n11 := Z.of_nat (count_transitions true true (values s)) |}.
Proof.
  rewrite transition_counts_scan. unfold astype_int.
  rewrite (adjacent_pairs_map (fun b : bool => if b then 1%Z else 0%Z)).
  change (fun pq : bool * bool =>
            (if fst pq then 1%Z else 0%Z, if snd pq then 1%Z else 0%Z))
    with (fun pq : bool * bool => (bool_to_Z (fst pq), bool_to_Z (snd pq))).
  rewrite fold_count_pair. apply counts_eq; reflexivity.
Qed.

Lemma count_transitions_total (bs : list bool) :
  (count_transitions false false bs + count_transitions false true bs
   + count_transitions true false bs + count_transitions true true bs
   = length bs - 1)%nat.
Proof.
  unfold count_transitions. rewrite <- (adjacent_pairs_length bs).
  induction (adjacent_pairs bs) as [|[[|] [|]] l IH]; simpl; lia.
Qed.

(** *** The likelihoods as functions of the four counts *)

Section Likelihood.

Open Scope R_scope.

Definition total (c : counts) : Z := (n00 c + n01 c + n10 c + n11 c)%Z.

Definition pi0_of (c : counts) : R :=
  if (n00 c + n01 c >? 0)%Z then IZR (n01 c) / IZR (n00 c + n01 c) else 0.

Definition pi1_of (c : counts) : R :=
  if (n10 c + n11 c >? 0)%Z then IZR (n11 c) / IZR (n10 c + n11 c) else 0.

Definition pi_of (c : counts) : R := IZR (n01 c + n11 c) / IZR (total c).

Definition L0_of (c : counts) : R :=
  IZR (n00 c + n10 c) * safe_log (1 - pi_of c)
  + IZR (n01 c + n11 c) * safe_log (pi_of c).

Definition L1_of (c : counts) : R :=
  IZR (n00 c) * safe_log (1 - pi0_of c)
  + IZR (n01 c) * safe_log (pi0_of c)
  + IZR (n10 c) * safe_log (1 - pi1_of c)
  + IZR (n11 c) * safe_log (pi1_of c).

Definition LR_of (c : counts) : R := -2 * (L0_of c - L1_of c).

Definition nonneg_counts (c : counts) : Prop :=
  (0 <= n00 c /\ 0 <= n01 c /\ 0 <= n10 c /\ 0 <= n11 c)%Z.

Lemma Rltb_true (x y : R) : x < y -> Rltb x y = true.
Proof. intros H. unfold Rltb. destruct (Rlt_dec x y); [reflexivity|lra]. Qed.

Lemma Rltb_false (x y : R) : y <= x -> Rltb x y = false.
Proof. intros H. unfold Rltb. destruct (Rlt_dec x y); [lra|reflexivity]. Qed.

Lemma Reqb_true (x y : R) : x = y -> Reqb x y = true.
Proof. intros H. unfold Reqb. destruct (Req_dec_T x y); [reflexivity|lra]. Qed.

Lemma Reqb_false (x y : R) : x <> y -> Reqb x y = false.
Proof.
  intros H. unfold Reqb. destruct (Req_dec_T x y); [contradiction|reflexivity].
Qed.

Lemma safe_log_pos (x : R) : 0 < x -> safe_log x = ln x.
Proof. intros H. unfold safe_log. now rewrite Rltb_true. Qed.

Lemma safe_log_nonpos (x : R) : x <= 0 -> safe_log x = 0.
Proof. intros H. unfold safe_log. now rewrite Rltb_false. Qed.

Lemma ln_le_minus_1 (x : R) : 0 < x -> ln x <= x - 1.
Proof.
  intros Hx. pose proof (exp_ineq1_le (ln x)) as H.
  rewrite exp_ln in H by assumption. lra.
Qed.

Lemma Rdiv_nonneg (x y : R) : 0 <= x -> 0 < y -> 0 <= x / y.
Proof. intros Hx Hy. unfold Rdiv. now apply Rle_mult_inv_pos. Qed.

Lemma ln_ratio (x y : R) : 0 < x -> 0 < y -> ln (x / y) = ln x - ln y.
Proof.
  intros Hx Hy. unfold Rdiv.
  rewrite ln_mult, ln_Rinv; auto using Rinv_0_lt_compat.
Qed.

(** Gibbs' inequality for one row of the transition table: the empirical
    frequency [p = b / (a + b)] maximises [a * ln (1 - q) + b * ln q].
    Under the guarded logarithm the statement needs [q] to vanish only
    when [b] does, and to reach 1 only when [a] vanishes. *)
Lemma gibbs_row (a b p q : R) :
  0 <= a -> 0 <= b -> 0 <= q <= 1 ->
  (0 < b -> 0 < q) -> (0 < a -> q < 1) ->
  (0 < a + b -> p = b / (a + b)) -> (a + b = 0 -> p = 0) ->
  a * safe_log (1 - q) + b * safe_log q
  <= a * safe_log (1 - p) + b * safe_log p.
Proof.
  intros Ha Hb Hq Hbq Haq Hp Hp0.
  destruct (Rle_lt_or_eq_dec 0 a Ha) as [Ha'|<-];
    destruct (Rle_lt_or_eq_dec 0 b Hb) as [Hb'|<-].
  - (* both counts positive *)
    specialize (Hbq Hb'). specialize (Haq Ha').
    assert (Hab : 0 < a + b) by lra.
    rewrite (Hp Hab).
    assert (E1 : 1 - b / (a + b) = a / (a + b)) by (field; lra).
    rewrite E1.
    assert (Hpa : 0 < a / (a + b)) by (apply Rdiv_lt_0_compat; lra).
    assert (Hpb : 0 < b / (a + b)) by (apply Rdiv_lt_0_compat; lra).
    rewrite !safe_log_pos by lra.
    assert (Ga : ln ((1 - q) / (a / (a + b))) <= (1 - q) / (a / (a + b)) - 1).
    { apply ln_le_minus_1. apply Rdiv_lt_0_compat; lra. }
    assert (Gb : ln (q / (b / (a + b))) <= q / (b / (a + b)) - 1).
    { apply ln_le_minus_1. apply Rdiv_lt_0_compat; lra. }
    rewrite ln_ratio in Ga, Gb by lra.
    assert (Ea : a * ((1 - q) / (a / (a + b)) - 1) = (1 - q) * (a + b) - a)
      by (field; lra).
    assert (Eb : b * (q / (b / (a + b)) - 1) = q * (a + b) - b)
      by (field; lra).
    assert (Ma : a * (ln (1 - q) - ln (a / (a + b)))
                 <= a * ((1 - q) / (a / (a + b)) - 1))
      by (apply Rmult_le_compat_l; lra).
    assert (Mb : b * (ln q - ln (b / (a + b)))
                 <= b * (q / (b / (a + b)) - 1))
      by (apply Rmult_le_compat_l; lra).
    lra.
  - (* no transition into a breach *)
    specialize (Haq Ha').
    rewrite (Hp ltac:(lra)).
    replace (0 / (a + 0)) with 0 by (field; lra).
    replace (1 - 0) with 1 by lra.
    rewrite (safe_log_pos (x := 1)) by lra. rewrite ln_1.
    rewrite (safe_log_pos (x := 1 - q)) by lra.
    assert (G : ln (1 - q) <= 1 - q - 1) by (apply ln_le_minus_1; lra).
    assert (M : a * ln (1 - q) <= a * 0) by (apply Rmult_le_compat_l; lra).
    lra.
  - (* every transition ends in a breach *)
    specialize (Hbq Hb').
    rewrite (Hp ltac:(lra)).
    replace (b / (0 + b)) with 1 by (field; lra).
    rewrite (safe_log_pos (x := 1)) by lra. rewrite ln_1.
    rewrite (safe_log_pos (x := q)) by lra.
    assert (G : ln q <= q - 1) by (apply ln_le_minus_1; lra).
    assert (M : b * ln q <= b * 0) by (apply Rmult_le_compat_l; lra).
    lra.
  - lra.
Qed.

End Likelihood.

Section ChristoffersenEval.

Open Scope R_scope.

Lemma pi0_of_pos (c : counts) :
  0 < IZR (n00 c) + IZR (n01 c) ->
  pi0_of c = IZR (n01 c) / (IZR (n00 c) + IZR (n01 c)).
Proof.
  intros H. unfold pi0_of. rewrite <- plus_IZR in *.
  apply lt_IZR in H. destruct (Z.gtb_spec (n00 c + n01 c) 0); [reflexivity|lia].
Qed.

Lemma pi0_of_zero (c : counts) :
  IZR (n00 c) + IZR (n01 c) = 0 -> pi0_of c = 0.
Proof.
  intros H. unfold pi0_of. rewrite <- plus_IZR in H.
  apply eq_IZR in H. rewrite H. reflexivity.
Qed.

Lemma pi1_of_pos (c : counts) :
  0 < IZR (n10 c) + IZR (n11 c) ->
  pi1_of c = IZR (n11 c) / (IZR (n10 c) + IZR (n11 c)).
Proof.
  intros H. unfold pi1_of. rewrite <- plus_IZR in *.
  apply lt_IZR in H. destruct (Z.gtb_spec (n10 c + n11 c) 0); [reflexivity|lia].
Qed.

Lemma pi1_of_zero (c : counts) :
  IZR (n10 c) + IZR (n11 c) = 0 -> pi1_of c = 0.
Proof.
  intros H. unfold pi1_of. rewrite <- plus_IZR in H.
  apply eq_IZR in H. rewrite H. reflexivity.
Qed.

(** In exact real arithmetic, with at least one transition the
    unrestricted log-likelihood dominates the restricted one: wherever the
    guarded logarithm meets 0 its coefficient is 0 too, so both are genuine
    log-likelihoods.  This is a fact about the two real sums, not about
    their rounded evaluation, where the difference of two nearly equal
    sums can come out below 0 by a rounding error. *)
Lemma L0_le_L1 (c : counts) :
  nonneg_counts c -> (0 < total c)%Z -> L0_of c <= L1_of c.
Proof.
  intros (H00 & H01 & H10 & H11) Htot. unfold total in Htot.
  unfold L0_of, L1_of, pi_of, total.
  pose proof (pi0_of_pos c) as P0p. pose proof (pi0_of_zero c) as P0z.
  pose proof (pi1_of_pos c) as P1p. pose proof (pi1_of_zero c) as P1z.
  rewrite !plus_IZR.
  apply IZR_le in H00, H01, H10, H11. apply IZR_lt in Htot.
  rewrite !plus_IZR in Htot.
  set (a := IZR (n00 c)) in *. set (b := IZR (n01 c)) in *.
  set (g := IZR (n10 c)) in *. set (h := IZR (n11 c)) in *.
  set (q := (b + h) / (a + b + g + h)).
  assert (Hq0 : 0 <= q) by (apply Rdiv_nonneg; lra).
  assert (Hq1 : 1 - q = (a + g) / (a + b + g + h)) by (unfold q; field; lra).
  assert (Hq1' : 0 <= 1 - q) by (rewrite Hq1; apply Rdiv_nonneg; lra).
  assert (Hqb : 0 < b + h -> 0 < q)
    by (intros; apply Rdiv_lt_0_compat; lra).
  assert (Hqa : 0 < a + g -> q < 1).
  { intros Hag. assert (0 < 1 - q); [|lra].
    rewrite Hq1. apply Rdiv_lt_0_compat; lra. }
  assert (R0 := @gibbs_row a b (pi0_of c) q H00 H01 ltac:(lra)
                  ltac:(intros; apply Hqb; lra)
                  ltac:(intros; apply Hqa; lra) P0p P0z).
  assert (R1 := @gibbs_row g h (pi1_of c) q H10 H11 ltac:(lra)
                  ltac:(intros; apply Hqb; lra)
                  ltac:(intros; apply Hqa; lra) P1p P1z).
  lra.
Qed.

(** The same, read on the statistic: exact real arithmetic only. *)
Lemma LR_of_nonneg (c : counts) :
  nonneg_counts c -> (0 < total c)%Z -> 0 <= LR_of c.
Proof.
  intros Hc Ht. unfold LR_of. pose proof (L0_le_L1 Hc Ht). lra.
Qed.

Context {scipy : SciPy}.

(** How the test ends, in terms of the counters of the scan: the two
    guarded quotients never raise, the third one raises exactly when the
    four counters add up to 0. *)
Lemma christoffersen_test_eval (s : Series bool) :
  christoffersen_test s =
  let c := transition_counts (astype_int s) in
  if (total c =? 0)%Z then Py.Raise Py.ZeroDivisionError
  else Py.Ok {| c_LR_stat := Fin (LR_of c);
                c_p_value := (Fin 1 - chi2_cdf (Fin (LR_of c)) 1)%float |}.
Proof.
  unfold christoffersen_test. cbv zeta.
  set (c := transition_counts (astype_int s)).
  assert (E0 : (if (n00 c + n01 c >? 0)%Z
                then Py.int_truediv (n01 c) (n00 c + n01 c) else Py.Ok 0)
               = Py.Ok (pi0_of c)).
  { unfold pi0_of, Py.int_truediv.
    destruct (Z.gtb_spec (n00 c + n01 c) 0) as [H|H]; [|reflexivity].
    destruct (Z.eqb_spec (n00 c + n01 c) 0); [lia|reflexivity]. }
  assert (E1 : (if (n10 c + n11 c >? 0)%Z
                then Py.int_truediv (n11 c) (n10 c + n11 c) else Py.Ok 0)
               = Py.Ok (pi1_of c)).
  { unfold pi1_of, Py.int_truediv.
    destruct (Z.gtb_spec (n10 c + n11 c) 0) as [H|H]; [|reflexivity].
    destruct (Z.eqb_spec (n10 c + n11 c) 0); [lia|reflexivity]. }
  rewrite E0, E1. cbn [Py.bind].
  unfold Py.int_truediv. fold (total c).
  destruct (Z.eqb_spec (total c) 0) as [H|H]; reflexivity.
Qed.

Lemma total_transitions (s : Series bool) :
  total (transition_counts (astype_int s)) = Z.of_nat (length s - 1).
Proof.
  rewrite transition_counts_spec. unfold total. cbn [n00 n01 n10 n11].
  rewrite <- (values_length s), <- (count_transitions_total (values s)). lia.
Qed.

Lemma transition_counts_nonneg (s : Series bool) :
  nonneg_counts (transition_counts (astype_int s)).
Proof.
  rewrite transition_counts_spec. unfold nonneg_counts.
  cbn [n00 n01 n10 n11]. lia.
Qed.

End ChristoffersenEval.

(** *** The test as the specification words it *)

Section ChristoffersenSpec.

Open Scope R_scope.

Context {scipy : SciPy}.

(** The guarded logarithm of the specification: [ln 0] is read as 0. *)
Definition guarded_ln (x : R) : R := if Reqb x 0 then 0 else ln x.

(** A conditional probability under the 0-probability convention: 0 when
    the denominator is 0. *)
Definition probability (num den : R) : R :=
  if Reqb den 0 then 0 else num / den.

(** The test written after the specification: transition counts over the
    adjacent pairs, probabilities under the 0-probability convention, both
    log-likelihoods with the guarded logarithm. *)
Definition christoffersen_spec (bs : list bool) : christoffersen_result :=
  let n p q := INR (count_transitions p q bs) in
  let n00 := n false false in
  let n01 := n false true in
  let n10 := n true false in
  let n11 := n true true in
  let pi0 := probability n01 (n00 + n01) in
  let pi1 := probability n11 (n10 + n11) in
  let pi := probability (n01 + n11) (n00 + n01 + n10 + n11) in
  let L0 := (n00 + n10) * guarded_ln (1 - pi) + (n01 + n11) * guarded_ln pi in
  let L1 := n00 * guarded_ln (1 - pi0) + n01 * guarded_ln pi0
            + n10 * guarded_ln (1 - pi1) + n11 * guarded_ln pi1 in
  let LR := -2 * (L0 - L1) in
  {| c_LR_stat := Fin LR;
     c_p_value := (Fin 1 - chi2_cdf (Fin LR) 1)%float |}.

Lemma safe_log_guarded (x : R) : 0 <= x -> safe_log x = guarded_ln x.
Proof.
  intros [H|<-]; unfold guarded_ln.
  - rewrite safe_log_pos, Reqb_false by lra. reflexivity.
  - rewrite safe_log_nonpos, Reqb_true by lra. reflexivity.
Qed.

Lemma probability_range (a b : R) :
  0 <= a -> 0 <= b -> 0 <= probability b (a + b) <= 1.
Proof.
  intros Ha Hb. unfold probability, Reqb.
  destruct (Req_dec_T (a + b) 0) as [E|E]; [lra|].
  split; [apply Rdiv_nonneg; lra|].
  apply Rmult_le_reg_r with (a + b); [lra|].
  unfold Rdiv. rewrite Rmult_assoc, Rinv_l by assumption. lra.
Qed.

Lemma pi0_of_probability (c : counts) :
  nonneg_counts c ->
  pi0_of c = probability (IZR (n01 c)) (IZR (n00 c) + IZR (n01 c)).
Proof.
  intros (H00 & H01 & _). apply IZR_le in H00, H01.
  unfold probability, Reqb.
  destruct (Req_dec_T (IZR (n00 c) + IZR (n01 c)) 0) as [E|E].
  - now apply pi0_of_zero.
  - apply pi0_of_pos. lra.
Qed.

Lemma pi1_of_probability (c : counts) :
  nonneg_counts c ->
  pi1_of c = probability (IZR (n11 c)) (IZR (n10 c) + IZR (n11 c)).
Proof.
  intros (_ & _ & H10 & H11). apply IZR_le in H10, H11.
  unfold probability, Reqb.
  destruct (Req_dec_T (IZR (n10 c) + IZR (n11 c)) 0) as [E|E].
  - now apply pi1_of_zero.
  - apply pi1_of_pos. lra.
Qed.

Lemma pi_of_probability (c : counts) :
  (total c <> 0)%Z ->
  pi_of c = probability (IZR (n01 c) + IZR (n11 c))
                        (IZR (n00 c) + IZR (n01 c) + IZR (n10 c)
                         + IZR (n11 c)).
Proof.
  intros Ht. unfold pi_of, total in *. rewrite <- !plus_IZR.
  unfold probability. rewrite Reqb_false; [reflexivity|].
  intros E. apply eq_IZR in E. lia.
Qed.

(** On a series with at least one transition the code computes the test of
    the specification. *)
Lemma christoffersen_test_refines (s : Series bool) :
  (2 <= length s)%nat ->
  christoffersen_test s = Py.Ok (christoffersen_spec (values s)).
Proof.
  intros Hlen. rewrite christoffersen_test_eval. cbv zeta.
  pose proof (total_transitions s) as Ht.
  pose proof (transition_counts_nonneg s) as Hc.
  destruct (Z.eqb_spec (total (transition_counts (astype_int s))) 0) as [E|E];
    [lia|].
  assert (EL : LR_of (transition_counts (astype_int s)) =
               match c_LR_stat (christoffersen_spec (values s)) with
               | Fin r => r
               | _ => 0
               end).
  { unfold LR_of, L0_of, L1_of.
    rewrite (pi0_of_probability Hc), (pi1_of_probability Hc),
      (@pi_of_probability _ E).
    destruct Hc as (H00 & H01 & H10 & H11).
    apply IZR_le in H00, H01, H10, H11.
    rewrite !plus_IZR.
    pose proof (probability_range H00 H01) as P0.
    pose proof (probability_range H10 H11) as P1.
    assert (P : 0 <= probability
                       (IZR (n01 (transition_counts (astype_int s)))
                        + IZR (n11 (transition_counts (astype_int s))))
                       (IZR (n00 (transition_counts (astype_int s)))
                        + IZR (n01 (transition_counts (astype_int s)))
                        + IZR (n10 (transition_counts (astype_int s)))
                        + IZR (n11 (transition_counts (astype_int s)))) <= 1).
    { match goal with
      | |- 0 <= probability ?b (?a0 + ?b0 + ?a1 + ?b1) <= 1 =>
          replace (a0 + b0 + a1 + b1) with ((a0 + a1) + b) by lra
      end.
      apply probability_range; lra. }
    rewrite !safe_log_guarded by lra.
    rewrite transition_counts_spec. cbn [n00 n01 n10 n11].
    unfold christoffersen_spec. cbn [c_LR_stat].
    rewrite <- !INR_IZR_INZ. reflexivity. }
  rewrite EL. reflexivity.
Qed.

(** C2 (the code departs from it on a series without a transition).  With
    at least two observations the code returns exactly the test of the
    specification: transition counts over the adjacent pairs, [pi0] and
    [pi1] set to 0 on a zero denominator, both log-likelihoods with the
    guarded logarithm, [LR = -2 (L0 - L1)] and the p-value
    [1 - chi2_1(LR)].  On the empty series the specification still returns
    a statistic, [LR = 0], while the code raises [ZeroDivisionError]. *)
Theorem christoffersen_test_against_spec :
  (forall s : Series bool,
      (2 <= length s)%nat ->
      christoffersen_test s = Py.Ok (christoffersen_spec (values s)))
  /\ c_LR_stat (christoffersen_spec []) = Fin 0
  /\ christoffersen_test [] = Py.Raise Py.ZeroDivisionError.
Proof.
  split; [exact christoffersen_test_refines|]. split.
  - unfold christoffersen_spec. cbn [c_LR_stat]. f_equal.
    unfold count_transitions. simpl. lra.
  - rewrite christoffersen_test_eval. cbv zeta.
    now rewrite total_transitions.
Qed.

(** C3 (the code departs from it).  The two conditional probabilities are
    guarded, the unconditional one is not: the test raises
    [ZeroDivisionError] exactly on the series with no transition pair, those
    of length 0 or 1. *)
Theorem christoffersen_test_zero_division (s : Series bool) :
  christoffersen_test s = Py.Raise Py.ZeroDivisionError <->
  (length s <= 1)%nat.
Proof.
  rewrite christoffersen_test_eval. cbv zeta.
  pose proof (total_transitions s) as Ht.
  destruct (Z.eqb_spec (total (transition_counts (astype_int s))) 0) as [E|E].
  - split; [lia|reflexivity].
  - split; [discriminate|lia].
Qed.

End ChristoffersenSpec.

(** ** Basel traffic light *)

(** The number of breaches at the positions [lo <= j < hi]. *)
Definition breach_count (bs : list bool) (lo hi : nat) : Z :=
  Z.of_nat (length (filter (fun j => nth j bs false) (seq lo (hi - lo)))).

Section Basel.

Lemma range_length (lo hi : Z) :
  length (Py.range lo hi) = Z.to_nat (hi - lo).
Proof. unfold Py.range. now rewrite length_map, length_seq. Qed.

Lemma range_nth_error (lo hi : Z) (k : nat) :
  (k < Z.to_nat (hi - lo))%nat ->
  nth_error (Py.range lo hi) k = Some (lo + Z.of_nat k)%Z.
Proof.
  intros Hk. unfold Py.range.
  rewrite nth_error_map, nth_error_seq.
  destruct (Nat.ltb_spec k (Z.to_nat (hi - lo))); [reflexivity|lia].
Qed.

Lemma sum_bool_window (bs : list bool) (lo w : nat) :
  (lo + w <= length bs)%nat ->
  sum_bool (firstn w (skipn lo bs)) = breach_count bs lo (lo + w).
Proof.
  unfold breach_count. replace (lo + w - lo)%nat with w by lia.
  revert lo bs. induction w as [|w IH]; intros lo bs Hlen.
  - reflexivity.
  - destruct (skipn lo bs) as [|b rest] eqn:E.
    { apply (f_equal (@length bool)) in E. rewrite length_skipn in E.
      simpl in E. lia. }
    assert (Hb : nth lo bs false = b).
    { rewrite <- (firstn_skipn lo bs) at 1.
      rewrite app_nth2; rewrite length_firstn; [|lia].
      replace (lo - Nat.min lo (length bs))%nat with 0%nat by lia.
      now rewrite E. }
    assert (Hrest : skipn (S lo) bs = rest).
    { replace (S lo) with (1 + lo)%nat by lia.
      rewrite <- skipn_skipn, E. reflexivity. }
    cbn [firstn seq filter]. rewrite sum_bool_cons, Hb, <- Hrest.
    rewrite (IH (S lo) bs) by lia.
    destruct b; cbn [length]; lia.
Qed.

Lemma slice_window (bs : list bool) (i w : Z) :
  (0 <= w <= i)%Z -> (i <= Z.of_nat (length bs))%Z ->
  Py.slice bs (i - w) i =
  firstn (Z.to_nat w) (skipn (Z.to_nat (i - w)) bs).
Proof.
  intros Hw Hi. unfold Py.slice, Py.clip.
  destruct (Z.ltb_spec (i - w) 0); [lia|].
  destruct (Z.ltb_spec i 0); [lia|].
  rewrite !Z.min_l by lia.
  now replace (i - (i - w))%Z with w by lia.
Qed.

Lemma slice_from_nonneg {A : Type} (l : list A) (w : Z) :
  (0 <= w)%Z -> Py.slice_from l w = skipn (Z.to_nat w) l.
Proof.
  intros Hw. unfold Py.slice_from, Py.clip.
  destruct (Z.ltb_spec w 0); [lia|].
  destruct (Z.le_gt_cases w (Z.of_nat (length l))).
  - now rewrite Z.min_l by lia.
  - rewrite Z.min_r, Nat2Z.id by lia.
    rewrite !skipn_all2 by lia. reflexivity.
Qed.

Lemma index_combine {A : Type} (ts : list Z) (data : list A) :
  length data = length ts -> index (combine ts data) = ts.
Proof.
  revert data. induction ts as [|t ts IH]; intros [|a data] H; simpl in *;
    try reflexivity; try discriminate.
  f_equal. apply IH. lia.
Qed.

Lemma nth_error_combine {A B : Type} (u : list A) (v : list B) (m : nat)
  (a : A) (b : B) :
  nth_error u m = Some a -> nth_error v m = Some b ->
  nth_error (combine u v) m = Some (a, b).
Proof.
  revert v m. induction u as [|x u IH]; intros [|y v] [|m]; simpl;
    try discriminate.
  - now intros [= ->] [= ->].
  - apply IH.
Qed.

Lemma classify_green (k : Z) : classify k = GREEN <-> (k <= 4)%Z.
Proof.
  unfold classify.
  destruct (Z.leb_spec k 4); [|destruct (Z.leb_spec k 9)];
    split; intros; try discriminate; try reflexivity; lia.
Qed.

Lemma classify_yellow (k : Z) : classify k = YELLOW <-> (5 <= k <= 9)%Z.
Proof.
  unfold classify.
  destruct (Z.leb_spec k 4); [|destruct (Z.leb_spec k 9)];
    split; intros; try discriminate; try reflexivity; lia.
Qed.

Lemma classify_red (k : Z) : classify k = RED <-> (10 <= k)%Z.
Proof.
  unfold classify.
  destruct (Z.leb_spec k 4); [|destruct (Z.leb_spec k 9)];
    split; intros; try discriminate; try reflexivity; lia.
Qed.

(** C4.  For a window size [W >= 0] the classifier returns a series with
    exactly [max 0 (length - W)] entries, indexed by the timestamps from
    position [W] on (the first [W] timestamps are left out); the entry of
    position [i >= W] classifies the number of breaches at the positions
    [i - W <= j < i]: at most 4 is GREEN, 5 to 9 is YELLOW, 10 or more is
    RED. *)
Theorem rolling_basel_traffic_light_spec (breaches : Series bool) (W : Z) :
  (0 <= W)%Z ->
  let n := Z.of_nat (length breaches) in
  exists out : Series status,
    rolling_basel_traffic_light breaches W = Py.Ok out
    /\ Z.of_nat (length out) = Z.max 0 (n - W)
    /\ index out = skipn (Z.to_nat W) (index breaches)
    /\ forall i : Z,
        (W <= i < n)%Z ->
        let k := breach_count (values breaches)
                              (Z.to_nat (i - W)) (Z.to_nat i) in
        nth_error out (Z.to_nat (i - W)) =
          Some (nth (Z.to_nat i) (index breaches) 0%Z, classify k)
        /\ (classify k = GREEN <-> (k <= 4)%Z)
        /\ (classify k = YELLOW <-> (5 <= k <= 9)%Z)
        /\ (classify k = RED <-> (10 <= k)%Z).
Proof.
  intros HW n. unfold rolling_basel_traffic_light, make.
  rewrite slice_from_nonneg by assumption.
  set (results := map _ (Py.range W (Z.of_nat (length breaches)))).
  fold n in results.
  assert (Hres : length results = Z.to_nat (n - W)).
  { unfold results. now rewrite length_map, range_length. }
  assert (Hidx : length (skipn (Z.to_nat W) (index breaches))
                 = Z.to_nat (n - W)).
  { rewrite length_skipn, index_length. unfold n. lia. }
  rewrite Hres, Hidx, Nat.eqb_refl.
  eexists. split; [reflexivity|]. split; [|split].
  - rewrite length_combine, Hres, Hidx. lia.
  - apply index_combine. now rewrite Hres, Hidx.
  - intros i Hi.
    set (k := breach_count (values breaches) (Z.to_nat (i - W)) (Z.to_nat i)).
    split; [|split; [apply classify_green|split;
                     [apply classify_yellow|apply classify_red]]].
    assert (Hk : (Z.to_nat (i - W) < Z.to_nat (n - W))%nat) by lia.
    assert (E1 : nth_error (skipn (Z.to_nat W) (index breaches))
                           (Z.to_nat (i - W))
                 = Some (nth (Z.to_nat i) (index breaches) 0%Z)).
    { rewrite nth_error_skipn.
      replace (Z.to_nat W + Z.to_nat (i - W))%nat with (Z.to_nat i) by lia.
      apply nth_error_nth'. rewrite index_length. unfold n in Hi. lia. }
    assert (E2 : nth_error results (Z.to_nat (i - W)) = Some (classify k)).
    { unfold results. rewrite nth_error_map, range_nth_error by exact Hk.
      cbn [option_map]. f_equal. f_equal.
      replace (W + Z.of_nat (Z.to_nat (i - W)))%Z with i by lia.
      rewrite slice_window by (rewrite ?values_length; unfold n in Hi; lia).
      rewrite sum_bool_window
        by (rewrite values_length; unfold n in Hi; lia).
      unfold k. f_equal. lia. }
    now apply nth_error_combine.
Qed.

End Basel.

(** ** Breach detector *)

Section Breaches.

Open Scope R_scope.

Lemma ltb_finite (x y : R) : ltb (Fin x) (Fin y) = true <-> x < y.
Proof.
  simpl. unfold Rltb. destruct (Rlt_dec x y); split; intros; auto;
    try discriminate; contradiction.
Qed.

Lemma lt_series_same_index (a b : Series float) :
  index a = index b ->
  lt_series a b =
  Py.Ok (map (fun p => (fst (fst p), ltb (snd (fst p)) (snd (snd p))))
             (combine a b)).
Proof.
  intros H. unfold lt_series.
  destruct (list_eq_dec Z.eq_dec (index a) (index b)); [reflexivity|].
  contradiction.
Qed.

Lemma neg_series_index (s : Series float) : index (neg_series s) = index s.
Proof.
  unfold index, neg_series. rewrite map_map. apply map_ext. reflexivity.
Qed.

Lemma neg_series_nth_error (s : Series float) (i : nat) (t : Z) (v : float) :
  nth_error s i = Some (t, v) ->
  nth_error (neg_series s) i = Some (t, (- v)%float).
Proof.
  intros H. unfold neg_series. rewrite nth_error_map, H. reflexivity.
Qed.

Definition example_returns : Series float :=
  [(0%Z, Fin (-0.05)); (1%Z, Fin 0.02); (2%Z, Fin (-0.01))].

Definition example_var : Series float :=
  [(0%Z, Fin 0.03); (1%Z, Fin 0.03); (2%Z, Fin 0.03)].

(** C9.  On two series over the same timestamps the detector returns the
    indicator over those timestamps, true at a timestamp exactly when the
    return is strictly less than [-VaR] there, together with the mean of
    the indicator as the breach rate; on returns [-0.05, 0.02, -0.01]
    against a VaR of 0.03 the indicator is [true, false, false] and the
    rate is 1/3. *)
Theorem var_breaches_spec :
  (forall returns var : Series float,
      index returns = index var ->
      exists breaches : Series bool,
        var_breaches returns var =
          Py.Ok (breaches, mean_bool (values breaches))
        /\ index breaches = index returns
        /\ forall (i : nat) (t t' : Z) (r v : float),
            nth_error returns i = Some (t, r) ->
            nth_error var i = Some (t', v) ->
            exists b : bool,
              nth_error breaches i = Some (t, b)
              /\ (b = true <-> lt r (- v)%float))
  /\ var_breaches example_returns example_var =
       Py.Ok ([(0%Z, true); (1%Z, false); (2%Z, false)], Fin (1 / 3)).
Proof.
  split.
  - intros returns var Hidx. unfold var_breaches.
    rewrite lt_series_same_index by (now rewrite neg_series_index).
    cbn [Py.bind]. eexists. split; [reflexivity|]. split.
    + assert (Hlen : length returns = length (neg_series var)).
      { rewrite <- (index_length returns), Hidx, index_length.
        unfold neg_series. now rewrite length_map. }
      revert Hlen. generalize (neg_series var) as w.
      clear Hidx. induction returns as [|[t r] rs IH]; intros [|[t' v] w] H;
        simpl in *; try reflexivity; try discriminate.
      f_equal. apply IH. lia.
    + intros i t t' r v Hr Hv.
      apply neg_series_nth_error in Hv.
      exists (ltb r (- v)%float). split; [|reflexivity].
      rewrite nth_error_map, (nth_error_combine _ _ _ Hr Hv). reflexivity.
  - unfold var_breaches, example_returns, example_var.
    rewrite lt_series_same_index by reflexivity.
    cbn [Py.bind combine neg_series map fst snd Float.neg values].
    assert (E0 : ltb (Fin (-0.05)) (Fin (Ropp 0.03)) = true)
      by (apply ltb_finite; lra).
    assert (E1 : ltb (Fin 0.02) (Fin (Ropp 0.03)) = false).
    { apply not_true_is_false. rewrite ltb_finite. lra. }
    assert (E2 : ltb (Fin (-0.01)) (Fin (Ropp 0.03)) = false).
    { apply not_true_is_false. rewrite ltb_finite. lra. }
    rewrite E0, E1, E2. unfold mean_bool.
    do 3 f_equal. cbn. lra.
Qed.

End Breaches.

(** ** Non-finite values *)

Section NonFinite.




End NonFinite.

(** ** VaR and CVaR under the Student-t family *)

Section StudentT.

Context {scipy : SciPy}.



End StudentT.


(** ** Volatility calibrator *)

Section Calibrator.

Open Scope R_scope.





End Calibrator.

(** ** Stress scenarios *)

Section Stress.

Lemma loc_slice_outside (returns : Series float) (start_ end_ : Z) :
  (forall t : Z, In t (index returns) -> ~ (start_ <= t <= end_)%Z) ->
  loc_slice returns start_ end_ = [].
Proof.
  intros H. unfold loc_slice.
  induction returns as [|[t v] rs IH]; [reflexivity|].
  cbn [filter fst].
  destruct (Z.leb_spec start_ t); destruct (Z.leb_spec t end_);
    cbn [andb]; try (apply IH; intros t' Ht'; apply H; now right).
  exfalso. apply (H t); [now left|lia].
Qed.

(** C7, as the code has it.  On a window that holds no observation of an
    increasing return series the analyzer does not fail: it returns the
    record with [days = 0], [NaN] for the worst day and for the average
    daily loss, and 0 (the empty sum, not [NaN]) for the cumulative
    loss. *)
Theorem stress_test_period_empty_window
  (returns : Series float) (start_ end_ : Z) :
  increasing (index returns) ->
  (forall t : Z, In t (index returns) -> ~ (start_ <= t <= end_)%Z) ->
  stress_test_period returns start_ end_ =
  {| start := start_;
     stop := end_;
     days := 0;
     worst_day := NaN;
     cumulative_loss := Fin 0;
     avg_daily_loss := NaN |}.
Proof.
  intros _ H. unfold stress_test_period.
  now rewrite (loc_slice_outside returns H).
Qed.

Definition crisis_free_returns : Series float :=
  [(100%Z, Fin 0.01); (101%Z, Fin (-0.02))].

(** C7 as stated fails: on a window without observations the cumulative
    loss is 0, not [NaN]. *)
Lemma stress_test_period_empty_sum :
  let r := stress_test_period crisis_free_returns 200 300 in
  days r = 0%Z
  /\ cumulative_loss r = Fin 0
  /\ is_nan (cumulative_loss r) = false.
Proof. repeat split. Qed.

End Stress.

(* ------------------------------------------------------------------ *)
(** ** VaR and CVaR under the Normal family *)

Section NormalFamily.

Open Scope R_scope.

(** The shape of the Gaussian density. *)
Definition gauss (z : R) : R := exp (- (z * z) / 2).

Lemma gauss_pos (z : R) : 0 < gauss z.
Proof. apply exp_pos. Qed.

Lemma gauss_derivative (z : R) : derivable_pt_lim gauss z (- z * gauss z).
Proof.
  assert (D : derivable_pt_lim (fun t => - (t * t) / 2) z (- z)).
  { apply derivable_pt_lim_ext with (f := (mult_real_fct (- / 2) (id * id))%F).
    - intros t. unfold mult_real_fct, mult_fct, id. field.
    - replace (- z) with (- / 2 * (1 * id z + id z * 1)) by (unfold id; field).
      apply derivable_pt_lim_scal.
      apply derivable_pt_lim_mult; apply derivable_pt_lim_id. }
  pose proof (derivable_pt_lim_comp _ _ _ _ _ D
                (derivable_pt_lim_exp (- (z * z) / 2))) as H.
  apply derivable_pt_lim_ext with (g := gauss) in H;
    [|intros t; reflexivity].
  replace (- z * gauss z) with (exp (- (z * z) / 2) * - z)
    by (unfold gauss; ring).
  exact H.
Qed.

(** The standard normal distribution over the reals: a density
    proportional to [gauss], the cumulative distribution function as its
    primitive with limits 0 and 1, and the quantile function as the
    inverse of the latter on (0, 1). *)
Record StandardNormal : Type := {
  cdf : R -> R;
  pdf : R -> R;
  ppf : R -> R;
  density_scale : R;
  density_scale_pos : 0 < density_scale;
  pdf_gaussian : forall z, pdf z = density_scale * gauss z;
  cdf_derivative : forall z, derivable_pt_lim cdf z (pdf z);
  cdf_limit : forall eps, 0 < eps ->
              exists M, forall z, M < z -> Rabs (cdf z - 1) < eps;
  cdf_limit_low : forall eps, 0 < eps ->
                  exists M, forall z, z < M -> Rabs (cdf z) < eps;
  ppf_inverse : forall alpha, 0 < alpha < 1 -> cdf (ppf alpha) = alpha
}.

Section Mills.

Variable N : StandardNormal.

Lemma pdf_pos (z : R) : 0 < pdf N z.
Proof.
  rewrite pdf_gaussian. apply Rmult_lt_0_compat;
    [apply density_scale_pos|apply gauss_pos].
Qed.

Lemma cdf_increasing (x y : R) : x < y -> cdf N x < cdf N y.
Proof.
  intros Hxy.
  destruct (MVT_cor2 (cdf N) (pdf N) x y Hxy) as (c & Hc & _).
  - intros c _. apply cdf_derivative.
  - pose proof (pdf_pos c) as Hp.
    assert (0 < pdf N c * (y - x)) by (apply Rmult_lt_0_compat; lra).
    lra.
Qed.








End Mills.

End NormalFamily.

Section NormalVaR.

Open Scope R_scope.

(** [scipy.stats.norm] computes the functions of the standard normal
    distribution [N]. *)
Definition models_normal (scipy : SciPy) (N : StandardNormal) : Prop :=
  (forall alpha : R, 0 < alpha < 1 -> norm_ppf (Fin alpha) = Fin (ppf N alpha))
  /\ (forall z : R, norm_pdf (Fin z) = Fin (pdf N z)).

(** A series of real values as a series of floats. *)
Definition finite_series (s : list (Z * R)) : Series float :=
  map (fun tv => (fst tv, Fin (snd tv))) s.


End NormalVaR.

(* ------------------------------------------------------------------ *)
(** * A reference model of scipy.stats

    The standard normal distribution is constructed over the reals: the
    cumulative distribution function from the Riemann integral of the
    Gaussian shape, normalised by the total area under it, and the
    quantile function as its inverse. *)

Section ReferenceNormal.

Open Scope R_scope.

Lemma gauss_continuous (z : R) : continuity_pt gauss z.
Proof.
  apply derivable_continuous_pt.
  exists (- z * gauss z). apply gauss_derivative.
Qed.

Definition gauss_integrable (a b : R) : Riemann_integrable gauss a b :=
  match Rle_dec a b with
  | left h => continuity_implies_RiemannInt h (fun x _ => gauss_continuous x)
  | right h =>
      RiemannInt_P1
        (continuity_implies_RiemannInt
           (Rlt_le _ _ (Rnot_le_lt _ _ h)) (fun x _ => gauss_continuous x))
  end.

(** The area under the Gaussian curve between 0 and [x]. *)
Definition gauss_area (x : R) : R := RiemannInt (gauss_integrable 0 x).

Lemma gauss_area_0 : gauss_area 0 = 0.
Proof. apply RiemannInt_P9. Qed.

Lemma gauss_area_derivative (x : R) :
  derivable_pt_lim gauss_area x (gauss x).
Proof.
  assert (h : x - 1 <= x + 1) by lra.
  set (C0 := fun (t : R) (_ : x - 1 <= t <= x + 1) => gauss_continuous t).
  pose proof (@RiemannInt_P28 gauss (x - 1) (x + 1) x h C0 ltac:(lra)) as D.
  apply derivable_pt_lim_locally_ext
    with (f := (primitive h (FTC_P1 h C0) + fct_cte (gauss_area (x - 1)))%F)
         (a := x - 1) (b := x + 1).
  - lra.
  - intros y Hy. unfold plus_fct, fct_cte, primitive.
    destruct (Rle_dec (x - 1) y) as [H1|H1]; [|lra].
    destruct (Rle_dec y (x + 1)) as [H2|H2]; [|lra].
    unfold gauss_area. rewrite Rplus_comm. apply RiemannInt_P26.
  - replace (gauss x) with (gauss x + 0) by ring.
    apply derivable_pt_lim_plus; [exact D|apply derivable_pt_lim_const].
Qed.

Lemma gauss_area_continuous : continuity gauss_area.
Proof.
  intros x. apply derivable_continuous_pt.
  exists (gauss x). apply gauss_area_derivative.
Qed.

Lemma gauss_area_increasing (x y : R) : x < y -> gauss_area x < gauss_area y.
Proof.
  intros Hxy.
  destruct (MVT_cor2 gauss_area gauss x y Hxy) as (c & Hc & _).
  - intros c _. apply gauss_area_derivative.
  - pose proof (gauss_pos c).
    assert (0 < gauss c * (y - x)) by (apply Rmult_lt_0_compat; lra).
    lra.
Qed.

Lemma gauss_area_odd (x : R) : gauss_area (- x) = - gauss_area x.
Proof.
  set (S := fun t => gauss_area t + gauss_area (- t)).
  assert (D : forall t, derivable_pt_lim S t 0).
  { intros t.
    assert (Dm : derivable_pt_lim (comp gauss_area (- id)%F) t
                   (gauss (- t) * - 1)).
    { apply derivable_pt_lim_comp.
      - apply derivable_pt_lim_opp, derivable_pt_lim_id.
      - apply gauss_area_derivative. }
    replace 0 with (gauss t + gauss (- t) * - 1).
    - apply (derivable_pt_lim_plus _ _ _ _ _ (gauss_area_derivative t) Dm).
    - unfold gauss. replace (- t * - t) with (t * t) by ring. ring. }
  assert (E : forall t, S t = S 0).
  { intros t. destruct (Rtotal_order 0 t) as [Ht|[<-|Ht]].
    - destruct (MVT_cor2 S (fun _ => 0) 0 t Ht) as (c & Hc & _);
        [intros; apply D|lra].
    - reflexivity.
    - destruct (MVT_cor2 S (fun _ => 0) t 0 Ht) as (c & Hc & _);
        [intros; apply D|lra]. }
  specialize (E x). unfold S in E.
  rewrite Ropp_0, gauss_area_0 in E. lra.
Qed.

Lemma exp_le_compat (x y : R) : x <= y -> exp x <= exp y.
Proof.
  intros [H| ->]; [left; now apply exp_increasing|right; reflexivity].
Qed.

Lemma gauss_area_bounded (x : R) : gauss_area x <= exp (1 / 2).
Proof.
  pose proof (exp_pos (1 / 2)) as He.
  destruct (Rle_lt_dec x 0) as [Hx|Hx].
  - destruct Hx as [Hx| ->].
    + pose proof (gauss_area_increasing Hx) as H.
      rewrite gauss_area_0 in H. lra.
    + rewrite gauss_area_0. lra.
  - set (K := fun t => gauss_area t + exp (1 / 2 - t)).
    assert (D : forall t,
               derivable_pt_lim K t (gauss t + exp (1 / 2 - t) * - 1)).
    { intros t. apply derivable_pt_lim_plus;
        [apply gauss_area_derivative|].
      apply (derivable_pt_lim_comp (fun u => 1 / 2 - u) exp).
      - replace (- 1) with (0 - 1) by ring.
        apply (derivable_pt_lim_minus (fct_cte (1 / 2)) id);
          [apply derivable_pt_lim_const|apply derivable_pt_lim_id].
      - apply derivable_pt_lim_exp. }
    destruct (MVT_cor2 K (fun t => gauss t + exp (1 / 2 - t) * - 1) 0 x Hx)
      as (c & Hc & Hc'); [intros; apply D|].
    assert (Hg : gauss c <= exp (1 / 2 - c)).
    { apply exp_le_compat. pose proof (Rle_0_sqr (c - 1)) as Hs.
      unfold Rsqr in Hs. lra. }
    assert (Hm : (gauss c + exp (1 / 2 - c) * - 1) * (x - 0) <= 0 * (x - 0))
      by (apply Rmult_le_compat_r; lra).
    unfold K in Hc. rewrite gauss_area_0 in Hc.
    replace (1 / 2 - 0) with (1 / 2) in Hc by lra.
    pose proof (exp_pos (1 / 2 - x)). lra.
Qed.

Definition gauss_areas (y : R) : Prop := exists x : R, y = gauss_area x.

Lemma gauss_areas_bound : bound gauss_areas.
Proof.
  exists (exp (1 / 2)). intros y [x ->]. apply gauss_area_bounded.
Qed.

Lemma gauss_areas_inhabited : exists y : R, gauss_areas y.
Proof. exists (gauss_area 0). now exists 0. Qed.

(** Half of the total area under the Gaussian curve. *)
Definition half_mass : R :=
  proj1_sig (completeness gauss_areas gauss_areas_bound gauss_areas_inhabited).

Lemma half_mass_lub : is_lub gauss_areas half_mass.
Proof.
  unfold half_mass.
  destruct (completeness gauss_areas gauss_areas_bound gauss_areas_inhabited).
  assumption.
Qed.

Lemma gauss_area_lt_half_mass (x : R) : gauss_area x < half_mass.
Proof.
  destruct half_mass_lub as [Hub _].
  pose proof (@gauss_area_increasing x (x + 1) ltac:(lra)).
  assert (gauss_area (x + 1) <= half_mass)
    by (apply Hub; now exists (x + 1)).
  lra.
Qed.

Lemma half_mass_pos : 0 < half_mass.
Proof. rewrite <- gauss_area_0. apply gauss_area_lt_half_mass. Qed.

Lemma gauss_area_above (y : R) :
  y < half_mass -> exists x : R, y < gauss_area x.
Proof.
  intros Hy. destruct half_mass_lub as [_ Hleast].
  destruct (classic (exists x : R, y < gauss_area x)) as [H|H]; [exact H|].
  exfalso. assert (Hub : is_upper_bound gauss_areas y).
  { intros v [x ->]. destruct (Rle_lt_dec (gauss_area x) y); [assumption|].
    exfalso. apply H. now exists x. }
  specialize (Hleast y Hub). lra.
Qed.

Lemma gauss_area_below (y : R) :
  - half_mass < y -> exists x : R, gauss_area x < y.
Proof.
  intros Hy. destruct (@gauss_area_above (- y) ltac:(lra)) as [x Hx].
  exists (- x). rewrite gauss_area_odd. lra.
Qed.

Lemma gauss_area_reaches (y : R) :
  - half_mass < y < half_mass -> exists z : R, gauss_area z = y.
Proof.
  intros [Hlo Hhi].
  destruct (gauss_area_below Hlo) as [a Ha].
  destruct (gauss_area_above Hhi) as [b Hb].
  assert (Hab : a < b).
  { destruct (Rlt_le_dec a b) as [H|H]; [exact H|exfalso].
    destruct H as [H|H].
    - pose proof (gauss_area_increasing H). lra.
    - subst. lra. }
  destruct (IVT (fun t => gauss_area t - y) a b) as (z & _ & Hz).
  - intros t. apply (continuity_pt_minus gauss_area (fct_cte y));
      [apply gauss_area_continuous|apply continuity_pt_const].
    intros u v. reflexivity.
  - exact Hab.
  - lra.
  - lra.
  - exists z. lra.
Qed.

Definition normal_cdf (x : R) : R := 1 / 2 + gauss_area x / (2 * half_mass).

Definition normal_pdf (x : R) : R := / (2 * half_mass) * gauss x.

Lemma normal_cdf_derivative (z : R) :
  derivable_pt_lim normal_cdf z (normal_pdf z).
Proof.
  pose proof half_mass_pos as HL.
  apply derivable_pt_lim_ext
    with (f := (fct_cte (1 / 2)
                + mult_real_fct (/ (2 * half_mass)) gauss_area)%F).
  - intros t. unfold plus_fct, fct_cte, mult_real_fct, normal_cdf.
    field. lra.
  - replace (normal_pdf z) with (0 + / (2 * half_mass) * gauss z)
      by (unfold normal_pdf; ring).
    apply derivable_pt_lim_plus; [apply derivable_pt_lim_const|].
    apply derivable_pt_lim_scal, gauss_area_derivative.
Qed.

Lemma normal_cdf_increasing (x y : R) :
  x < y -> normal_cdf x < normal_cdf y.
Proof.
  intros H. pose proof half_mass_pos as HL.
  pose proof (gauss_area_increasing H) as HG.
  unfold normal_cdf. apply Rplus_lt_compat_l.
  apply Rmult_lt_compat_r; [|exact HG].
  apply Rinv_0_lt_compat. lra.
Qed.

Lemma normal_cdf_limit (eps : R) :
  0 < eps -> exists M, forall z, M < z -> Rabs (normal_cdf z - 1) < eps.
Proof.
  intros Heps. pose proof half_mass_pos as HL.
  destruct (@gauss_area_above (half_mass - eps * (2 * half_mass))) as [M HM].
  { assert (0 < eps * (2 * half_mass)) by (apply Rmult_lt_0_compat; lra).
    lra. }
  exists M. intros z Hz.
  pose proof (gauss_area_increasing Hz) as Hinc.
  pose proof (gauss_area_lt_half_mass z) as Hlt.
  assert (E : normal_cdf z - 1 = (gauss_area z - half_mass) / (2 * half_mass))
    by (unfold normal_cdf; field; lra).
  rewrite E, Rabs_left.
  - apply Rmult_lt_reg_r with (2 * half_mass); [lra|].
    replace (- ((gauss_area z - half_mass) / (2 * half_mass))
             * (2 * half_mass))
      with (half_mass - gauss_area z) by (field; lra).
    lra.
  - apply Rmult_lt_reg_r with (2 * half_mass); [lra|].
    replace ((gauss_area z - half_mass) / (2 * half_mass) * (2 * half_mass))
      with (gauss_area z - half_mass) by (field; lra).
    lra.
Qed.

Lemma normal_cdf_reaches (alpha : R) :
  0 < alpha < 1 -> exists z : R, normal_cdf z = alpha.
Proof.
  intros [H0 H1]. pose proof half_mass_pos as HL.
  destruct (@gauss_area_reaches ((2 * alpha - 1) * half_mass)) as [z Hz].
  { split; nra. }
  exists z. unfold normal_cdf. rewrite Hz. field. lra.
Qed.

(** The arguments whose cumulative probability does not exceed [alpha]. *)
Definition below_level (alpha z : R) : Prop := normal_cdf z <= alpha.

Lemma normal_cdf_le_inv (x y : R) : normal_cdf x <= normal_cdf y -> x <= y.
Proof.
  intros H. destruct (Rle_lt_dec x y) as [Hxy|Hxy]; [exact Hxy|].
  pose proof (normal_cdf_increasing Hxy). lra.
Qed.

Lemma below_level_bound (alpha : R) :
  0 < alpha < 1 -> bound (below_level alpha).
Proof.
  intros H. destruct (normal_cdf_reaches H) as [z0 Hz0].
  exists z0. intros z Hz. unfold below_level in Hz.
  apply normal_cdf_le_inv. lra.
Qed.

Lemma below_level_inhabited (alpha : R) :
  0 < alpha < 1 -> exists z : R, below_level alpha z.
Proof.
  intros H. destruct (normal_cdf_reaches H) as [z0 Hz0].
  exists z0. unfold below_level. lra.
Qed.

(** The quantile function: the largest argument whose cumulative
    probability does not exceed [alpha]. *)
Definition normal_ppf (alpha : R) : R :=
  match Rlt_dec 0 alpha, Rlt_dec alpha 1 with
  | left h0, left h1 =>
      proj1_sig (completeness (below_level alpha)
                   (below_level_bound (conj h0 h1))
                   (below_level_inhabited (conj h0 h1)))
  | _, _ => 0
  end.

Lemma normal_ppf_inverse (alpha : R) :
  0 < alpha < 1 -> normal_cdf (normal_ppf alpha) = alpha.
Proof.
  intros H. destruct (normal_cdf_reaches H) as [z0 Hz0].
  unfold normal_ppf.
  destruct (Rlt_dec 0 alpha) as [h0|h0]; [|lra].
  destruct (Rlt_dec alpha 1) as [h1|h1]; [|lra].
  destruct (completeness _ _ _) as [z Hz]. cbn [proj1_sig].
  assert (Hlub : is_lub (below_level alpha) z0).
  { split.
    - intros t Ht. unfold below_level in Ht.
      apply normal_cdf_le_inv. lra.
    - intros b Hb. apply Hb. unfold below_level. lra. }
  now rewrite (is_lub_u _ _ _ Hz Hlub).
Qed.

Lemma normal_cdf_mirror (z : R) : normal_cdf (- z) = 1 - normal_cdf z.
Proof.
  pose proof half_mass_pos. unfold normal_cdf.
  rewrite gauss_area_odd. field. lra.
Qed.

Lemma normal_cdf_limit_low (eps : R) :
  0 < eps -> exists M, forall z, z < M -> Rabs (normal_cdf z) < eps.
Proof.
  intros Heps. destruct (normal_cdf_limit Heps) as [M HM].
  exists (- M). intros z Hz. specialize (HM (- z) ltac:(lra)).
  rewrite normal_cdf_mirror in HM.
  replace (1 - normal_cdf z - 1) with (- normal_cdf z) in HM by ring.
  now rewrite Rabs_Ropp in HM.
Qed.

Definition reference_normal : StandardNormal :=
  {| cdf := normal_cdf;
     pdf := normal_pdf;
     ppf := normal_ppf;
     density_scale := / (2 * half_mass);
     density_scale_pos :=
       Rinv_0_lt_compat _ (Rmult_lt_0_compat _ _ Rlt_0_2 half_mass_pos);
     pdf_gaussian := fun z => eq_refl;
     cdf_derivative := normal_cdf_derivative;
     cdf_limit := normal_cdf_limit;
     cdf_limit_low := normal_cdf_limit_low;
     ppf_inverse := normal_ppf_inverse |}.

End ReferenceNormal.

Section ReferenceSciPy.

Open Scope R_scope.

(** [norm.ppf]: the quantile inside (0, 1), the infinities at 0 and 1. *)
Definition reference_norm_ppf (a : float) : float :=
  match a with
  | Fin alpha =>
      if Rltb 0 alpha && Rltb alpha 1 then Fin (normal_ppf alpha)
      else if Reqb alpha 0 then Inf true
      else if Reqb alpha 1 then Inf false
      else NaN
  | _ => NaN
  end.

(** [norm.pdf] *)
Definition reference_norm_pdf (a : float) : float :=
  match a with
  | NaN => NaN
  | Inf _ => Fin 0
  | Fin z => Fin (normal_pdf z)
  end.

(** [chi2.cdf] with one degree of freedom: the law of the square of a
    standard normal variable. *)
Definition reference_chi2_cdf (x : float) (df : Z) : float :=
  if (df =? 1)%Z then
    match x with
    | NaN => NaN
    | Inf true => Fin 0
    | Inf false => Fin 1
    | Fin v => if Rltb 0 v then Fin (2 * normal_cdf (sqrt v) - 1) else Fin 0
    end
  else NaN.

(** The instance behind the examples.  The Student-t functions, and the
    chi-squared law with other degrees of freedom, need the Gamma function
    and are not constructed: the instance answers [NaN] for them, and no
    example below reaches them. *)
Definition reference_scipy : SciPy :=
  {| norm_ppf := reference_norm_ppf;
     norm_pdf := reference_norm_pdf;
     t_ppf := fun _ _ => NaN;
     t_pdf := fun _ _ => NaN;
     chi2_cdf := reference_chi2_cdf |}.

Lemma reference_models_normal : models_normal reference_scipy reference_normal.
Proof.
  split.
  - intros alpha [H0 H1]. cbn [norm_ppf reference_scipy reference_norm_ppf].
    rewrite !Rltb_true by assumption. reflexivity.
  - intros z. reflexivity.
Qed.

End ReferenceSciPy.

(* ------------------------------------------------------------------ *)
(** * The theorems at concrete inputs *)

Section Examples.

Open Scope R_scope.

Definition quiet_breaches : Series bool :=
  [(0%Z, false); (1%Z, false); (2%Z, false)].

Definition clustered_breaches : Series bool :=
  [(0%Z, false); (1%Z, true); (2%Z, true)].

Definition single_breach : Series bool := [(0%Z, true)].

(** A sample without a breach is a degenerate Kupiec sample. *)
Lemma kupiec_degenerate_sample_quiet :
  (sum_bool (values quiet_breaches) = 0%Z
   \/ sum_bool (values quiet_breaches) = Z.of_nat (length quiet_breaches))
  /\ kupiec_pof_test (scipy := reference_scipy) quiet_breaches (Fin 0.99) =
     {| k_LR_stat := NaN;
        k_p_value := NaN;
        k_breaches := 0;
        k_expected := (of_Z 3 * (Fin 1 - Fin 0.99))%float |}.
Proof.
  split.
  - left. reflexivity.
  - apply (@kupiec_degenerate_sample reference_scipy quiet_breaches
             (Fin 0.99)).
    left. reflexivity.
Defined.

(** Three observations hold two transitions: the code follows the
    specification there. *)
Lemma christoffersen_test_against_spec_clustered :
  (2 <= length clustered_breaches)%nat
  /\ christoffersen_test (scipy := reference_scipy) clustered_breaches =
     Py.Ok (christoffersen_spec (scipy := reference_scipy)
              (values clustered_breaches)).
Proof.
  assert (H : (2 <= length clustered_breaches)%nat) by (simpl; lia).
  split; [exact H|].
  exact (proj1 (@christoffersen_test_against_spec reference_scipy)
           clustered_breaches H).
Defined.

(** One observation holds no transition: the unguarded quotient raises. *)
Lemma christoffersen_test_zero_division_single :
  (length single_breach <= 1)%nat
  /\ christoffersen_test (scipy := reference_scipy) single_breach =
     Py.Raise Py.ZeroDivisionError.
Proof.
  assert (H : (length single_breach <= 1)%nat) by (simpl; lia).
  split; [exact H|].
  exact (proj2 (@christoffersen_test_zero_division reference_scipy
                  single_breach) H).
Defined.

(** With a window of two days a three-day series gets one status. *)
Lemma rolling_basel_traffic_light_clustered :
  (0 <= 2)%Z
  /\ exists out : Series status,
       rolling_basel_traffic_light clustered_breaches 2 = Py.Ok out
       /\ Z.of_nat (length out) = 1%Z.
Proof.
  assert (H : (0 <= 2)%Z) by lia.
  split; [exact H|].
  destruct (@rolling_basel_traffic_light_spec clustered_breaches 2 H)
    as (out & Hout & Hlen & _).
  exists out. split; [exact Hout|exact Hlen].
Defined.

Lemma var_breaches_spec_example :
  index example_returns = index example_var
  /\ exists breaches : Series bool,
       var_breaches example_returns example_var =
       Py.Ok (breaches, mean_bool (values breaches)).
Proof.
  assert (H : index example_returns = index example_var) by reflexivity.
  split; [exact H|].
  destruct (proj1 var_breaches_spec example_returns example_var H)
    as (breaches & Hb & _).
  exists breaches. exact Hb.
Defined.


Lemma stress_test_period_empty_window_example :
  increasing (index crisis_free_returns)
  /\ (forall t : Z, In t (index crisis_free_returns) ->
                    ~ (200 <= t <= 300)%Z)
  /\ stress_test_period crisis_free_returns 200 300 =
     {| start := 200;
        stop := 300;
        days := 0;
        worst_day := NaN;
        cumulative_loss := Fin 0;
        avg_daily_loss := NaN |}.
Proof.
  assert (Hi : increasing (index crisis_free_returns))
    by (simpl; split; [lia|exact I]).
  assert (Ho : forall t : Z, In t (index crisis_free_returns) ->
                             ~ (200 <= t <= 300)%Z).
  { simpl. intros t [<-|[<-|[]]]; lia. }
  split; [exact Hi|]. split; [exact Ho|].
  exact (@stress_test_period_empty_window crisis_free_returns 200 300 Hi Ho).
Defined.

End Examples.

(* ------------------------------------------------------------------ *)
(** * Further properties of the engine *)

(** ** Finite float arithmetic *)

Section FiniteFloats.

Open Scope R_scope.

Lemma log_finite (v : R) : 0 < v -> log (Fin v) = Fin (ln v).
Proof. intros H. simpl. now rewrite Rltb_true. Qed.

Lemma log_zero : log (Fin 0) = Inf true.
Proof.
  simpl. rewrite Rltb_false by lra. now rewrite Reqb_true.
Qed.

Lemma log_negative (v : R) : v < 0 -> log (Fin v) = NaN.
Proof.
  intros H. simpl. rewrite Rltb_false by lra. now rewrite Reqb_false by lra.
Qed.

Lemma div_finite (x y : R) : y <> 0 -> (Fin x / Fin y)%float = Fin (x / y).
Proof. intros H. simpl. now rewrite Reqb_false. Qed.

Lemma mul_finite_inf (x : R) (s : bool) :
  0 < x -> (Fin x * Inf s)%float = Inf s.
Proof.
  intros H. simpl. rewrite Reqb_false, Rltb_false by lra. reflexivity.
Qed.

End FiniteFloats.

(** ** Kupiec: the statistic on a sample with variation *)

Section KupiecStatistic.

Open Scope R_scope.

Context {scipy : SciPy}.

Lemma kupiec_pof_test_variation (breaches : Series bool) (alpha : float) :
  let T := Z.of_nat (length breaches) in
  let x := sum_bool (values breaches) in
  (0 < x < T)%Z ->
  kupiec_pof_test breaches alpha =
  let p := (Fin 1 - alpha)%float in
  let LR :=
    (Fin (-2) *
     (of_Z (T - x) * log (Fin 1 - p) + of_Z x * log p
      - (of_Z (T - x) * log (Fin 1 - of_Z x / of_Z T)
         + of_Z x * log (of_Z x / of_Z T))))%float in
  {| k_LR_stat := LR;
     k_p_value := (Fin 1 - chi2_cdf LR 1)%float;
     k_breaches := x;
     k_expected := (of_Z T * p)%float |}.
Proof.
  intros T x Hx. unfold kupiec_pof_test.
  rewrite astype_int_sum, astype_int_length. fold T x.
  destruct (Z.eqb_spec x 0) as [E|_]; [lia|].
  destruct (Z.eqb_spec x T) as [E|_]; [lia|].
  reflexivity.
Qed.

Lemma empirical_rate_range (T x : Z) :
  (0 < x < T)%Z -> 0 < IZR x / IZR T < 1.
Proof.
  intros [H0 H1]. apply IZR_lt in H0. apply IZR_lt in H1.
  split.
  - apply Rdiv_lt_0_compat; lra.
  - apply Rmult_lt_reg_r with (IZR T); [lra|].
    unfold Rdiv. rewrite Rmult_assoc, Rinv_l by lra. lra.
Qed.

End KupiecStatistic.

Section KupiecEdges.

Open Scope R_scope.

Context {scipy : SciPy}.

(** X3.  The confidence level is not validated.  On a sample with
    variation a level of exactly 0 or 1 gives the statistic [+inf] and a
    level above 1 gives [NaN]; below 0 the statistic is not a finite
    number either ([NaN] when [1 - alpha] is computed exactly); no error is
    raised. *)
Theorem kupiec_statistic_outside_unit_interval
  (breaches : Series bool) (alpha : R) :
  let T := Z.of_nat (length breaches) in
  let x := sum_bool (values breaches) in
  (0 < x < T)%Z ->
  ((alpha = 0 \/ alpha = 1) ->
   k_LR_stat (kupiec_pof_test breaches (Fin alpha)) = Inf false)
  /\ (1 < alpha ->
      k_LR_stat (kupiec_pof_test breaches (Fin alpha)) = NaN)
  /\ (alpha < 0 ->
      is_finite (k_LR_stat (kupiec_pof_test breaches (Fin alpha))) = false).
Proof.
  intros T x Hx.
  pose proof (empirical_rate_range Hx) as Hr.
  assert (HT : IZR T <> 0) by (apply not_0_IZR; lia).
  assert (Ha : 0 < IZR (T - x)) by (apply IZR_lt; lia).
  assert (Hb : 0 < IZR x) by (apply IZR_lt; lia).
  rewrite kupiec_pof_test_variation by exact Hx. fold T x.
  cbv zeta. cbn [k_LR_stat]. unfold of_Z. rewrite (div_finite _ HT).
  cbn [Float.sub Float.neg add].
  rewrite (log_finite (v := 1 + - (IZR x / IZR T))) by lra.
  rewrite (log_finite (v := IZR x / IZR T)) by lra.
  split; [|split].
  - intros [-> | ->].
    + replace (1 + - (1 + - 0)) with 0 by lra.
      replace (1 + - 0) with 1 by lra.
      rewrite log_zero, (log_finite (v := 1)) by lra.
      rewrite (mul_finite_inf _ Ha). cbn [mul add Float.neg].
      rewrite Reqb_false, Rltb_true by lra. reflexivity.
    + replace (1 + - (1 + - (1))) with 1 by lra.
      replace (1 + - (1)) with 0 by lra.
      rewrite log_zero, (log_finite (v := 1)) by lra.
      rewrite (mul_finite_inf _ Hb). cbn [mul add Float.neg].
      rewrite Reqb_false, Rltb_true by lra. reflexivity.
  - intros H.
    rewrite (log_negative (v := 1 + - alpha)) by lra.
    destruct (log (Fin (1 + - (1 + - alpha)))) as [|s|v]; try reflexivity.
    cbn [mul]. destruct (Reqb (IZR (T - x)) 0); reflexivity.
  - intros H.
    rewrite (log_negative (v := 1 + - (1 + - alpha))) by lra.
    reflexivity.
Qed.

End KupiecEdges.

(** ** Christoffersen: series without variation *)

Section ChristoffersenConstant.

Open Scope R_scope.

Context {scipy : SciPy}.

Lemma count_transitions_constant (c p q : bool) (bs : list bool) :
  Forall (fun b => b = c) bs ->
  count_transitions p q bs =
  if Bool.eqb c p && Bool.eqb c q then (length bs - 1)%nat else 0%nat.
Proof.
  intros H. unfold count_transitions, adjacent_pairs.
  induction H as [|b bs -> Hbs IH]; [now destruct (_ && _)|].
  destruct Hbs as [|b' bs' -> Hbs']; [now destruct (_ && _)|].
  cbn [tl combine filter fst snd length] in *.
  destruct (Bool.eqb c p && Bool.eqb c q); cbn [length]; rewrite IH; lia.
Qed.

Lemma safe_log_1 : safe_log 1 = 0.
Proof. rewrite safe_log_pos by lra. apply ln_1. Qed.

Lemma safe_log_0 : safe_log 0 = 0.
Proof. apply safe_log_nonpos. lra. Qed.

Lemma LR_of_only_n00 (n : Z) :
  (0 < n)%Z -> LR_of {| n00 := n; n01 := 0; n10 := 0; n11 := 0 |} = 0.
Proof.
  intros Hn. assert (HR : IZR n <> 0) by (apply not_0_IZR; lia).
  unfold LR_of, L0_of, L1_of, pi_of, pi0_of, pi1_of, total.
  cbn [n00 n01 n10 n11].
  replace (n + 0 >? 0)%Z with true by (symmetry; apply Z.gtb_lt; lia).
  cbn [Z.add Z.gtb Z.compare].
  replace (0 / IZR (n + 0)) with 0 by (unfold Rdiv; ring).
  replace (0 / IZR (n + 0 + 0 + 0)) with 0 by (unfold Rdiv; ring).
  replace (1 - 0) with 1 by ring.
  rewrite safe_log_1, safe_log_0. ring.
Qed.

Lemma LR_of_only_n11 (n : Z) :
  (0 < n)%Z -> LR_of {| n00 := 0; n01 := 0; n10 := 0; n11 := n |} = 0.
Proof.
  intros Hn. assert (HR : IZR n <> 0) by (apply not_0_IZR; lia).
  unfold LR_of, L0_of, L1_of, pi_of, pi0_of, pi1_of, total.
  cbn [n00 n01 n10 n11].
  replace (0 + n >? 0)%Z with true by (symmetry; apply Z.gtb_lt; lia).
  cbn [Z.add Z.gtb Z.compare].
  replace (IZR n / IZR n) with 1 by (field; exact HR).
  replace (1 - 1) with 0 by ring. replace (1 - 0) with 1 by ring.
  rewrite safe_log_1, safe_log_0. ring.
Qed.

Lemma sum_bool_constant (c : bool) (bs : list bool) :
  Forall (fun b => b = c) bs ->
  sum_bool bs = if c then Z.of_nat (length bs) else 0%Z.
Proof.
  induction 1 as [|b bs -> _ IH].
  - now destruct c.
  - rewrite sum_bool_cons, IH. cbn [length]. destruct c; lia.
Qed.

Lemma christoffersen_test_constant (breaches : Series bool) (c : bool) :
  (2 <= length breaches)%nat ->
  Forall (fun b => b = c) (values breaches) ->
  christoffersen_test breaches =
  Py.Ok {| c_LR_stat := Fin 0;
           c_p_value := (Fin 1 - chi2_cdf (Fin 0) 1)%float |}.
Proof.
  intros Hlen Hc. rewrite christoffersen_test_eval. cbv zeta.
  pose proof (total_transitions breaches) as Ht.
  destruct (Z.eqb_spec (total (transition_counts (astype_int breaches))) 0)
    as [E|_]; [lia|].
  assert (E : LR_of (transition_counts (astype_int breaches)) = 0).
  { rewrite transition_counts_spec.
    rewrite !(count_transitions_constant _ _ Hc), values_length.
    destruct c; cbn [Bool.eqb andb].
    - apply LR_of_only_n11. lia.
    - apply LR_of_only_n00. lia. }
  rewrite E. reflexivity.
Qed.

(** X4.  On a series of at least two observations that are all equal (no
    breach at all, or a breach every day) the Christoffersen test returns
    the statistic 0, whereas the Kupiec test declares the same sample
    degenerate with a [NaN] statistic. *)
Theorem christoffersen_test_constant_series (breaches : Series bool)
  (c : bool) (alpha : float) :
  (2 <= length breaches)%nat ->
  Forall (fun b => b = c) (values breaches) ->
  christoffersen_test breaches =
    Py.Ok {| c_LR_stat := Fin 0;
             c_p_value := (Fin 1 - chi2_cdf (Fin 0) 1)%float |}
  /\ k_LR_stat (kupiec_pof_test breaches alpha) = NaN.
Proof.
  intros Hlen Hc. split; [now apply christoffersen_test_constant with c|].
  unfold kupiec_pof_test. rewrite astype_int_sum, astype_int_length.
  rewrite (sum_bool_constant Hc), values_length.
  destruct c.
  - rewrite Z.eqb_refl, orb_true_r. reflexivity.
  - reflexivity.
Qed.

End ChristoffersenConstant.

(** ** Christoffersen: the complemented indicator *)

Section ChristoffersenComplement.

Open Scope R_scope.

Context {scipy : SciPy}.

(** [~s] on a boolean series *)
Definition complement (s : Series bool) : Series bool :=
  map (fun tv => (fst tv, negb (snd tv))) s.

Definition swap_counts (c : counts) : counts :=
  {| n00 := n11 c; n01 := n10 c; n10 := n01 c; n11 := n00 c |}.

Lemma count_transitions_negb (p q : bool) (bs : list bool) :
  count_transitions p q (map negb bs) =
  count_transitions (negb p) (negb q) bs.
Proof.
  unfold count_transitions. rewrite adjacent_pairs_map.
  induction (adjacent_pairs bs) as [|[a b] l IH]; [reflexivity|].
  cbn [map filter fst snd].
  replace (Bool.eqb (negb a) p && Bool.eqb (negb b) q)
    with (Bool.eqb a (negb p) && Bool.eqb b (negb q))
    by (destruct a, b, p, q; reflexivity).
  destruct (Bool.eqb a (negb p) && Bool.eqb b (negb q));
    cbn [length]; now rewrite IH.
Qed.

Lemma transition_counts_complement (s : Series bool) :
  transition_counts (astype_int (complement s)) =
  swap_counts (transition_counts (astype_int s)).
Proof.
  rewrite !transition_counts_spec. unfold swap_counts.
  cbn [n00 n01 n10 n11].
  assert (E : values (complement s) = map negb (values s)).
  { unfold values, complement. rewrite !map_map. reflexivity. }
  rewrite E, !count_transitions_negb. reflexivity.
Qed.

(** One row of the unrestricted log-likelihood, read from either end. *)
Lemma row_swap (a b p p' : R) :
  0 <= a -> 0 <= b ->
  (0 < a + b -> p = b / (a + b)) -> (a + b = 0 -> p = 0) ->
  (0 < b + a -> p' = a / (b + a)) -> (b + a = 0 -> p' = 0) ->
  b * safe_log (1 - p') + a * safe_log p'
  = a * safe_log (1 - p) + b * safe_log p.
Proof.
  intros Ha Hb Hp Hp0 Hp' Hp0'.
  destruct (Rle_lt_or_eq_dec 0 (a + b) ltac:(lra)) as [H|H].
  - rewrite (Hp H), (Hp' ltac:(lra)).
    replace (1 - a / (b + a)) with (b / (a + b)) by (field; lra).
    replace (1 - b / (a + b)) with (a / (b + a)) by (field; lra).
    ring.
  - assert (a = 0) by lra. assert (b = 0) by lra. subst. ring.
Qed.

Lemma LR_of_swap (c : counts) :
  nonneg_counts c -> (0 < total c)%Z -> LR_of (swap_counts c) = LR_of c.
Proof.
  intros (H00 & H01 & H10 & H11) Htot. unfold total in Htot.
  pose proof (pi0_of_pos c) as P0p. pose proof (pi0_of_zero c) as P0z.
  pose proof (pi1_of_pos c) as P1p. pose proof (pi1_of_zero c) as P1z.
  pose proof (pi0_of_pos (swap_counts c)) as Q0p.
  pose proof (pi0_of_zero (swap_counts c)) as Q0z.
  pose proof (pi1_of_pos (swap_counts c)) as Q1p.
  pose proof (pi1_of_zero (swap_counts c)) as Q1z.
  unfold LR_of, L0_of, L1_of, pi_of, total.
  cbn [swap_counts n00 n01 n10 n11] in *.
  rewrite !plus_IZR.
  apply IZR_le in H00, H01, H10, H11. apply IZR_lt in Htot.
  rewrite !plus_IZR in Htot.
  set (a := IZR (n00 c)) in *. set (b := IZR (n01 c)) in *.
  set (g := IZR (n10 c)) in *. set (h := IZR (n11 c)) in *.
  assert (Eq : 1 - (g + a) / (h + g + b + a) = (b + h) / (a + b + g + h))
    by (field; lra).
  assert (Eq' : 1 - (b + h) / (a + b + g + h) = (g + a) / (h + g + b + a))
    by (field; lra).
  rewrite Eq, <- Eq'.
  pose proof (@row_swap g h (pi1_of c) (pi0_of (swap_counts c))
                H10 H11 P1p P1z Q0p Q0z) as R0.
  pose proof (@row_swap a b (pi0_of c) (pi1_of (swap_counts c))
                H00 H01 P0p P0z Q1p Q1z) as R1.
  replace (1 - (g + a) / (h + g + b + a)) with ((b + h) / (a + b + g + h))
    by (symmetry; exact Eq).
  lra.
Qed.

(** X5.  The test does not tell a breach from a quiet day: complementing
    every indicator of a series swaps the four transition counts crosswise,
    the complemented series fails with [ZeroDivisionError] exactly when the
    series does, and in exact real arithmetic the statistic and the p-value
    are unchanged (the code adds the same four terms in another order, so
    its two rounded results can differ in the last digits). *)
Theorem christoffersen_test_complement (breaches : Series bool) :
  transition_counts (astype_int (complement breaches)) =
  swap_counts (transition_counts (astype_int breaches))
  /\ (christoffersen_test (complement breaches)
        = Py.Raise Py.ZeroDivisionError
      <-> christoffersen_test breaches = Py.Raise Py.ZeroDivisionError)
  /\ christoffersen_test (complement breaches)
     = christoffersen_test breaches.
Proof.
  assert (E : christoffersen_test (complement breaches)
              = christoffersen_test breaches).
  { rewrite !christoffersen_test_eval. cbv zeta.
    rewrite transition_counts_complement.
    set (c := transition_counts (astype_int breaches)).
    assert (Et : total (swap_counts c) = total c).
    { unfold total, swap_counts. cbn [n00 n01 n10 n11]. lia. }
    rewrite Et.
    destruct (Z.eqb_spec (total c) 0) as [E|E]; [reflexivity|].
    rewrite LR_of_swap; [reflexivity|apply transition_counts_nonneg|].
    pose proof (total_transitions breaches). fold c in H. lia. }
  split; [apply transition_counts_complement|].
  split; [now rewrite E|exact E].
Qed.

End ChristoffersenComplement.

(** ** Basel traffic light: windows and consecutive days *)

Section BaselWindows.

(** X6.  A negative window size is not rejected up front, and it never
    yields a classification: the loop produces more statuses than there
    are timestamps left for them, and building the result series fails
    with a [ValueError]. *)
Theorem rolling_basel_traffic_light_negative_window
  (breaches : Series bool) (W : Z) :
  (W < 0)%Z ->
  exists msg : string,
    rolling_basel_traffic_light breaches W = Py.Raise (Py.ValueError msg).
Proof.
  intros HW. unfold rolling_basel_traffic_light, make.
  rewrite length_map, range_length.
  unfold Py.slice_from, Py.clip.
  destruct (Z.ltb_spec W 0) as [_|H]; [|lia].
  rewrite length_skipn, index_length.
  destruct (Nat.eqb_spec
              (Z.to_nat (Z.of_nat (length breaches) - W))
              (length breaches
               - Z.to_nat (Z.max 0 (Z.of_nat (length breaches) + W))))
    as [E|_]; [lia|].
  eexists. reflexivity.
Qed.

Lemma rolling_basel_traffic_light_eval (breaches : Series bool) (W : Z) :
  (0 <= W)%Z ->
  rolling_basel_traffic_light breaches W =
  Py.Ok (combine (skipn (Z.to_nat W) (index breaches))
           (map (fun k =>
                   classify (breach_count (values breaches) k
                                          (k + Z.to_nat W)))
                (seq 0 (length breaches - Z.to_nat W)))).
Proof.
  intros HW. unfold rolling_basel_traffic_light, make.
  rewrite slice_from_nonneg by assumption.
  rewrite length_map, range_length, length_skipn, index_length.
  replace (Z.to_nat (Z.of_nat (length breaches) - W))
    with (length breaches - Z.to_nat W)%nat by lia.
  rewrite Nat.eqb_refl. do 2 f_equal.
  unfold Py.range. rewrite map_map.
  replace (Z.to_nat (Z.of_nat (length breaches) - W))
    with (length breaches - Z.to_nat W)%nat by lia.
  apply map_ext_in. intros k Hk. apply in_seq in Hk. f_equal.
  replace (W + Z.of_nat k - W)%Z with (Z.of_nat k) by lia.
  replace (Z.of_nat k) with (W + Z.of_nat k - W)%Z at 1 by lia.
  rewrite slice_window by (rewrite ?values_length; lia).
  replace (Z.to_nat (W + Z.of_nat k - W)) with k by lia.
  apply sum_bool_window. rewrite values_length. lia.
Qed.

Lemma breach_count_empty (bs : list bool) (lo : nat) :
  breach_count bs lo lo = 0%Z.
Proof. unfold breach_count. now rewrite Nat.sub_diag. Qed.

Lemma breach_count_step_hi (bs : list bool) (lo hi : nat) :
  (lo <= hi)%nat ->
  breach_count bs lo (S hi) =
  (breach_count bs lo hi + if nth hi bs false then 1 else 0)%Z.
Proof.
  intros H. unfold breach_count.
  replace (S hi - lo)%nat with (S (hi - lo)) by lia.
  rewrite seq_S, filter_app, length_app.
  replace (lo + (hi - lo))%nat with hi by lia.
  cbn [filter]. destruct (nth hi bs false); cbn [length]; lia.
Qed.

Lemma breach_count_step_lo (bs : list bool) (lo hi : nat) :
  (lo < hi)%nat ->
  breach_count bs lo hi =
  ((if nth lo bs false then 1 else 0) + breach_count bs (S lo) hi)%Z.
Proof.
  intros H. unfold breach_count.
  replace (hi - lo)%nat with (S (hi - S lo)) by lia.
  cbn [seq filter]. destruct (nth lo bs false); cbn [length]; lia.
Qed.

(** Sliding the window by one day changes the count by at most one. *)
Lemma breach_count_slide (bs : list bool) (lo w : nat) :
  (Z.abs (breach_count bs (S lo) (S lo + w) - breach_count bs lo (lo + w))
   <= 1)%Z.
Proof.
  destruct w as [|w].
  - rewrite !Nat.add_0_r, !breach_count_empty. lia.
  - pose proof (@breach_count_step_hi bs lo (lo + S w) ltac:(lia)) as Hhi.
    pose proof (@breach_count_step_lo bs lo (S (lo + S w)) ltac:(lia)) as Hlo.
    replace (S lo + S w)%nat with (S (lo + S w)) by lia.
    destruct (nth (lo + S w) bs false), (nth lo bs false); lia.
Qed.

Lemma nth_error_combine_inv {A B : Type} (u : list A) (v : list B)
  (m : nat) (a : A) (b : B) :
  nth_error (combine u v) m = Some (a, b) ->
  nth_error u m = Some a /\ nth_error v m = Some b.
Proof.
  revert v m. induction u as [|x u IH]; intros [|y v] [|m]; simpl;
    try discriminate.
  - intros [= -> ->]. now split.
  - apply IH.
Qed.

(** X7.  The classification cannot jump between GREEN and RED from one
    day to the next: consecutive windows differ in one entering and one
    leaving day, and the YELLOW band is five counts wide. *)
Theorem rolling_basel_traffic_light_no_jump
  (breaches : Series bool) (W : Z) (out : Series status) :
  (0 <= W)%Z ->
  rolling_basel_traffic_light breaches W = Py.Ok out ->
  forall (k : nat) (t t' : Z) (a b : status),
    nth_error out k = Some (t, a) ->
    nth_error out (S k) = Some (t', b) ->
    (a = GREEN -> b <> RED) /\ (a = RED -> b <> GREEN).
Proof.
  intros HW Hout k t t' a b Ha Hb.
  rewrite rolling_basel_traffic_light_eval in Hout by assumption.
  injection Hout as <-.
  apply nth_error_combine_inv in Ha, Hb.
  destruct Ha as [_ Ha]. destruct Hb as [_ Hb].
  rewrite nth_error_map in Ha, Hb.
  destruct (nth_error (seq 0 (length breaches - Z.to_nat W)) k)
    as [i|] eqn:Ei; [|discriminate].
  destruct (nth_error (seq 0 (length breaches - Z.to_nat W)) (S k))
    as [j|] eqn:Ej; [|discriminate].
  rewrite nth_error_seq in Ei, Ej.
  destruct (Nat.ltb_spec k (length breaches - Z.to_nat W)); [|discriminate].
  destruct (Nat.ltb_spec (S k) (length breaches - Z.to_nat W));
    [|discriminate].
  cbn [Nat.add] in Ei, Ej. injection Ei as <-. injection Ej as <-.
  cbn [option_map] in Ha, Hb. injection Ha as <-. injection Hb as <-.
  pose proof (breach_count_slide (values breaches) k (Z.to_nat W)) as Hs.
  cbn [Nat.add] in Hs.
  split; intros Hc Hd.
  - apply classify_green in Hc. apply classify_red in Hd. lia.
  - apply classify_red in Hc. apply classify_green in Hd. lia.
Qed.

End BaselWindows.

(** ** Breach detector: errors, the rate, and the tests downstream *)

Section BreachRate.

Open Scope R_scope.

(** The indicator of the aligned pairs (return, VaR). *)
Definition breach_flags (returns var : Series float) : list bool :=
  map (fun rv => ltb (fst rv) (- snd rv)%float)
      (combine (values returns) (values var)).

Lemma var_breaches_eval (returns var : Series float) :
  index returns = index var ->
  exists breaches : Series bool,
    var_breaches returns var = Py.Ok (breaches, mean_bool (values breaches))
    /\ values breaches = breach_flags returns var
    /\ index breaches = index returns.
Proof.
  intros Hidx. unfold var_breaches.
  rewrite lt_series_same_index by (now rewrite neg_series_index).
  cbn [Py.bind]. eexists. split; [reflexivity|]. split.
  - unfold breach_flags. clear Hidx. revert var.
    induction returns as [|[t r] rs IH]; intros [|[t' v] w];
      try reflexivity.
    cbn [neg_series values map combine fst snd].
    f_equal. apply IH.
  - assert (Hlen : length returns = length (neg_series var)).
    { rewrite <- (index_length returns), Hidx, index_length.
      unfold neg_series. now rewrite length_map. }
    revert Hlen. generalize (neg_series var) as w. clear Hidx.
    induction returns as [|[t r] rs IH]; intros [|[t' v] w] H;
      simpl in *; try reflexivity; try discriminate.
    f_equal. apply IH. lia.
Qed.

(** X8.  Two series over different timestamps are not compared position
    by position: the detector fails with a [ValueError]. *)
Theorem var_breaches_index_mismatch (returns var : Series float) :
  index returns <> index var ->
  exists msg : string, var_breaches returns var = Py.Raise (Py.ValueError msg).
Proof.
  intros H. unfold var_breaches, lt_series.
  rewrite neg_series_index.
  destruct (list_eq_dec Z.eq_dec (index returns) (index var)) as [E|_];
    [contradiction|].
  eexists. reflexivity.
Qed.

Lemma mean_bool_range (l : list bool) :
  l <> [] ->
  mean_bool l = Fin (IZR (sum_bool l) / INR (length l))
  /\ 0 <= IZR (sum_bool l) / INR (length l) <= 1.
Proof.
  intros Hne. destruct l as [|b l]; [contradiction|].
  set (l' := b :: l) in *.
  assert (Hn : 0 < INR (length l')) by (apply lt_0_INR; simpl; lia).
  pose proof (sum_bool_bounds l') as [H0 H1].
  apply IZR_le in H0, H1. rewrite <- INR_IZR_INZ in H1.
  split; [reflexivity|]. split.
  - apply Rdiv_nonneg; lra.
  - apply Rmult_le_reg_r with (INR (length l')); [lra|].
    unfold Rdiv. rewrite Rmult_assoc, Rinv_l by lra. lra.
Qed.

(** X9.  On aligned input the breach rate is [NaN] for an empty domain
    and otherwise the quotient of the number of timestamps whose return
    is below [-VaR] by the number of timestamps, a number between 0 and
    1. *)
Theorem var_breaches_rate (returns var : Series float) :
  index returns = index var ->
  exists (breaches : Series bool) (rate : float),
    var_breaches returns var = Py.Ok (breaches, rate)
    /\ length breaches = length returns
    /\ (returns = [] -> rate = NaN)
    /\ (returns <> [] ->
        let x := sum_bool (breach_flags returns var) in
        rate = Fin (IZR x / INR (length returns))
        /\ 0 <= IZR x / INR (length returns) <= 1).
Proof.
  intros Hidx.
  destruct (var_breaches_eval returns var Hidx) as (b & Hb & Hv & Hi).
  assert (Hlen : length b = length returns)
    by (now rewrite <- (index_length b), Hi, index_length).
  exists b, (mean_bool (values b)). split; [exact Hb|].
  split; [exact Hlen|]. split.
  - intros ->. destruct b; [reflexivity|discriminate].
  - intros Hne. cbv zeta.
    rewrite <- Hv, <- Hlen, <- (values_length b).
    apply mean_bool_range. intros E.
    apply (f_equal (@length bool)) in E.
    rewrite values_length, Hlen in E.
    destruct returns; [contradiction|discriminate].
Qed.

Context {scipy : SciPy}.

(** X10.  When no return falls below [-VaR] the three steps that follow
    each other in the pipeline agree on "nothing to report": the breach
    rate is 0, the Kupiec test is degenerate with [NaN] statistic and
    p-value, and the Christoffersen statistic is 0. *)
Theorem backtests_without_breach (returns var : Series float)
  (alpha : float) :
  index returns = index var ->
  (2 <= length returns)%nat ->
  (forall r v : float,
      In (r, v) (combine (values returns) (values var)) ->
      ~ lt r (- v)%float) ->
  exists breaches : Series bool,
    var_breaches returns var = Py.Ok (breaches, Fin 0)
    /\ k_LR_stat (kupiec_pof_test breaches alpha) = NaN
    /\ k_p_value (kupiec_pof_test breaches alpha) = NaN
    /\ christoffersen_test breaches =
       Py.Ok {| c_LR_stat := Fin 0;
                c_p_value := (Fin 1 - chi2_cdf (Fin 0) 1)%float |}.
Proof.
  intros Hidx Hlen Hno.
  destruct (var_breaches_eval returns var Hidx) as (b & Hb & Hv & Hi).
  assert (Hb_len : length b = length returns)
    by (now rewrite <- (index_length b), Hi, index_length).
  assert (Hall : Forall (fun x => x = false) (values b)).
  { rewrite Hv. unfold breach_flags. apply Forall_map, Forall_forall.
    intros [r v] Hin. cbn [fst snd]. apply not_true_is_false.
    exact (Hno r v Hin). }
  assert (Hsum : sum_bool (values b) = 0%Z)
    by (now rewrite (sum_bool_constant Hall)).
  exists b. split; [|split; [|split]].
  - rewrite Hb. do 2 f_equal. unfold mean_bool.
    pose proof (values_length b) as Hvl. revert Hsum Hvl.
    destruct (values b) as [|b0 l]; intros Hsum Hvl.
    + simpl in Hvl. lia.
    + rewrite Hsum. f_equal. unfold Rdiv. ring.
  - unfold kupiec_pof_test. now rewrite astype_int_sum, Hsum.
  - unfold kupiec_pof_test. now rewrite astype_int_sum, Hsum.
  - apply christoffersen_test_constant with false; [lia|exact Hall].
Qed.

End BreachRate.

(** ** VaR/CVaR calculator: families and alignment *)

Section Alignment.

Lemma rows_spec {A : Type} (t t' : Z) (a : A) (s : Series A) :
  In (t', a) (rows t s) <-> In (t', a) s /\ t' = t.
Proof.
  unfold rows. rewrite filter_In. cbn [fst]. rewrite Z.eqb_eq. tauto.
Qed.

Lemma rows_absent {A : Type} (t : Z) (s : Series A) :
  ~ In t (index s) -> rows t s = [].
Proof.
  induction s as [|[t' a'] s IH]; cbn [index map fst In]; intros H;
    [reflexivity|].
  unfold rows. cbn [filter fst].
  destruct (Z.eqb_spec t' t) as [->|_]; [tauto|].
  apply IH. tauto.
Qed.

Lemma rows_present {A : Type} (t : Z) (s : Series A) :
  In t (index s) -> rows t s <> [].
Proof.
  unfold index. rewrite in_map_iff. intros [[t' a] [E Hin]] Hnil.
  cbn [fst] in E. subst t'.
  assert (H : In (t, a) (rows t s)) by (apply rows_spec; now split).
  rewrite Hnil in H. destruct H.
Qed.

Lemma rows_app {A : Type} (t : Z) (s1 s2 : Series A) :
  rows t (s1 ++ s2) = rows t s1 ++ rows t s2.
Proof. apply filter_app. Qed.

(** On an index without repetition a label selects one row. *)
Lemma rows_unique {A : Type} (t : Z) (s : Series A) :
  NoDup (index s) -> In t (index s) -> exists a : A, rows t s = [(t, a)].
Proof.
  induction s as [|[t' a'] s IH]; cbn [index map fst In]; intros Hnd Hin;
    [contradiction|].
  inversion Hnd as [|? ? Hno Hnd']; subst.
  change (rows t ((t', a') :: s)) with (rows t ([(t', a')] ++ s)).
  rewrite rows_app. unfold rows at 1. cbn [filter fst].
  destruct (Z.eqb_spec t' t) as [->|Hne].
  - exists a'. now rewrite (@rows_absent _ t s Hno).
  - destruct Hin as [E|Hin]; [contradiction|].
    destruct (IH Hnd' Hin) as [a Ha]. exists a. now rewrite Ha.
Qed.

Lemma loc_returns {A : Type} (s : Series A) (labels : list Z) :
  (forall t : Z, In t labels -> In t (index s)) ->
  exists r : Series A,
    loc s labels = Py.Ok r
    /\ (forall (t : Z) (a : A), In (t, a) r <-> In (t, a) s /\ In t labels)
    /\ (NoDup (index s) -> index r = labels).
Proof.
  induction labels as [|t labels IH]; intros H.
  - exists []. repeat split; cbn [In]; tauto.
  - pose proof (@rows_present _ t s (H t (or_introl eq_refl))) as Hne.
    destruct IH as (r & Hr & Hv & Hi);
      [intros t' Ht'; apply H; now right|].
    exists (rows t s ++ r). cbn [loc]. rewrite Hr.
    destruct (rows t s) as [|row found] eqn:E; [congruence|].
    cbn [Py.bind]. split; [reflexivity|]. rewrite <- E. split.
    + intros t' a. rewrite in_app_iff, rows_spec, Hv. cbn [In].
      intuition congruence.
    + intros Hnd.
      destruct (@rows_unique _ t s Hnd (H t (or_introl eq_refl))) as [a Ha].
      rewrite Ha. cbn [app index map fst]. f_equal. exact (Hi Hnd).
Qed.

Lemma loc_missing {A : Type} (s : Series A) (labels : list Z) :
  (exists t : Z, In t labels /\ ~ In t (index s)) ->
  loc s labels = Py.Raise Py.KeyError.
Proof.
  induction labels as [|t labels IH]; intros (t0 & Hin & Hno).
  - destruct Hin.
  - cbn [loc]. destruct (rows t s) as [|row found] eqn:E; [reflexivity|].
    destruct Hin as [<-|Hin].
    + rewrite (@rows_absent _ t s Hno) in E. discriminate.
    + rewrite IH by (exists t0; now split). reflexivity.
Qed.

Lemma loc_self {A : Type} (s : Series A) :
  NoDup (index s) -> loc s (index s) = Py.Ok s.
Proof.
  assert (G : forall (pre post : Series A),
             NoDup (index (pre ++ post)) ->
             loc (pre ++ post) (index post) = Py.Ok post).
  { intros pre post. revert pre.
    induction post as [|[t a] post IH]; intros pre Hnd; [reflexivity|].
    cbn [index map fst loc].
    assert (Hl : rows t (pre ++ (t, a) :: post) = [(t, a)]).
    { unfold index in Hnd. rewrite map_app in Hnd. cbn [map fst] in Hnd.
      pose proof (NoDup_remove_2 _ _ _ Hnd) as Hno.
      change ((t, a) :: post) with ([(t, a)] ++ post).
      rewrite !rows_app.
      rewrite (@rows_absent _ t pre), (@rows_absent _ t post).
      - unfold rows. cbn [filter fst]. now rewrite Z.eqb_refl.
      - intros Hin; apply Hno, in_or_app; now right.
      - intros Hin; apply Hno, in_or_app; now left. }
    rewrite Hl.
    replace (pre ++ (t, a) :: post) with ((pre ++ [(t, a)]) ++ post) in *
      by (now rewrite <- app_assoc).
    fold (index post). rewrite (IH _ Hnd). reflexivity. }
  intros H. exact (G [] s H).
Qed.

Lemma scalar_mul_index (c : float) (s : Series float) :
  index (scalar_mul c s) = index s.
Proof.
  unfold index, scalar_mul. rewrite map_map. apply map_ext. reflexivity.
Qed.

Context {scipy : SciPy}.

(** The families the calculator knows, with the parameter they need. *)
Definition supported (dist : string) (nu : option float) : Prop :=
  dist = "normal"%string \/ (dist = "t"%string /\ nu <> None).

Lemma parametric_var_cvar_supported
  (returns sigma : Series float) (alpha : float) (dist : string)
  (nu : option float) :
  supported dist nu ->
  exists zc : float * float,
    parametric_var_cvar returns sigma alpha dist nu =
    (aligned_returns <- loc returns (index sigma) ;;
     Py.Ok (aligned_returns, scalar_mul (fst zc) sigma,
            scalar_mul (snd zc) sigma)).
Proof.
  intros [->|[-> Hnu]].
  - eexists (_, _). reflexivity.
  - destruct nu as [nu|]; [|contradiction]. eexists (_, _). reflexivity.
Qed.

(** X11.  A distribution tag other than ["normal"] and ["t"] is rejected
    with a [ValueError] before anything else is looked at, the alignment
    of the two series included. *)
Theorem parametric_var_cvar_unsupported_dist
  (returns sigma : Series float) (alpha : float) (dist : string)
  (nu : option float) :
  dist <> "normal"%string -> dist <> "t"%string ->
  parametric_var_cvar returns sigma alpha dist nu =
  Py.Raise (Py.ValueError "dist must be 'normal' or 't'").
Proof.
  intros Hn Ht. unfold parametric_var_cvar.
  destruct (String.eqb_spec dist "normal"); [contradiction|].
  destruct (String.eqb_spec dist "t"); [contradiction|].
  reflexivity.
Qed.

(** X12.  For a supported family the calculator succeeds exactly when
    every timestamp of the volatility series is a timestamp of the return
    series; otherwise the call fails with a [KeyError].  On success the
    VaR and the CVaR carry the timestamps of the volatility series, and the
    aligned returns are the rows of the return series whose timestamp is
    one of the volatility series: every such row, also when the return
    series repeats a timestamp.  When no timestamp of the return series is
    repeated the aligned returns carry the timestamps of the volatility
    series too. *)
Theorem parametric_var_cvar_alignment
  (returns sigma : Series float) (alpha : float) (dist : string)
  (nu : option float) :
  supported dist nu ->
  ((forall t : Z, In t (index sigma) -> In t (index returns)) ->
   exists aligned var cvar : Series float,
     parametric_var_cvar returns sigma alpha dist nu =
       Py.Ok (aligned, var, cvar)
     /\ index var = index sigma
     /\ index cvar = index sigma
     /\ (forall (t : Z) (r : float),
          In (t, r) aligned <-> In (t, r) returns /\ In t (index sigma))
     /\ (NoDup (index returns) -> index aligned = index sigma))
  /\ ((exists t : Z, In t (index sigma) /\ ~ In t (index returns)) ->
      parametric_var_cvar returns sigma alpha dist nu =
      Py.Raise Py.KeyError).
Proof.
  intros Hs.
  destruct (parametric_var_cvar_supported returns sigma alpha Hs)
    as [[z c] E].
  rewrite E. cbn [fst snd]. split.
  - intros Hin.
    destruct (@loc_returns _ returns (index sigma) Hin) as (a & Ha & Hv & Hi).
    exists a, (scalar_mul z sigma), (scalar_mul c sigma).
    rewrite Ha. cbn [Py.bind]. split; [reflexivity|].
    split; [apply scalar_mul_index|].
    split; [apply scalar_mul_index|]. split; [exact Hv|exact Hi].
  - intros Hmiss. now rewrite (@loc_missing _ returns (index sigma) Hmiss).
Qed.

(** X13.  When the volatility series covers exactly the timestamps of the
    return series (each once), the aligned returns are the return series
    itself. *)
Theorem parametric_var_cvar_same_index
  (returns sigma : Series float) (alpha : float) (dist : string)
  (nu : option float) :
  supported dist nu ->
  index sigma = index returns ->
  NoDup (index returns) ->
  exists var cvar : Series float,
    parametric_var_cvar returns sigma alpha dist nu =
    Py.Ok (returns, var, cvar).
Proof.
  intros Hs Hidx Hnd.
  destruct (parametric_var_cvar_supported returns sigma alpha Hs)
    as [[z c] E].
  rewrite E, Hidx, (@loc_self _ returns Hnd). cbn [Py.bind fst snd].
  eexists _, _. reflexivity.
Qed.

End Alignment.

(** ** Reductions of finite series *)

Section FiniteReductions.

Open Scope R_scope.

Definition Rsum (xs : list R) : R := fold_right Rplus 0 xs.

(** The sample standard deviation (divisor [n - 1]). *)
Definition sample_std (xs : list R) : R :=
  let avg := Rsum xs / INR (length xs) in
  sqrt (Rsum (map (fun x => (avg - x) * (avg - x)) xs)
        / INR (length xs - 1)).

Lemma finite_series_values (s : list (Z * R)) :
  values (finite_series s) = map Fin (map snd s).
Proof. unfold values, finite_series. now rewrite !map_map. Qed.

Lemma finite_series_index (s : list (Z * R)) :
  index (finite_series s) = map fst s.
Proof. unfold index, finite_series. now rewrite map_map. Qed.

Lemma dropna_finite (xs : list R) : dropna (map Fin xs) = map Fin xs.
Proof.
  unfold dropna. induction xs as [|x xs IH]; [reflexivity|].
  cbn [map filter is_nan negb]. now rewrite IH.
Qed.

Lemma fold_add_finite (xs : list R) (a : R) :
  fold_left add (map Fin xs) (Fin a) = Fin (a + Rsum xs).
Proof.
  revert a. induction xs as [|x xs IH]; intros a; cbn [map fold_left add].
  - f_equal. unfold Rsum. cbn [fold_right]. ring.
  - rewrite IH. f_equal. unfold Rsum. cbn [fold_right]. ring.
Qed.

Lemma fsum_finite (xs : list R) : fsum (map Fin xs) = Fin (Rsum xs).
Proof.
  unfold fsum. rewrite dropna_finite, fold_add_finite. f_equal. ring.
Qed.

Lemma mean_finite (xs : list R) :
  xs <> [] -> mean (map Fin xs) = Fin (Rsum xs / INR (length xs)).
Proof.
  intros Hne. unfold mean. rewrite dropna_finite, fsum_finite.
  destruct xs as [|x xs]; [contradiction|].
  cbn [map]. rewrite <- (map_cons Fin x xs), length_map.
  unfold of_nat. apply div_finite. apply not_0_INR. discriminate.
Qed.

Lemma Rsum_squares_nonneg (f : R -> R) (xs : list R) :
  0 <= Rsum (map (fun x => f x * f x) xs).
Proof.
  induction xs as [|x xs IH]; cbn [map Rsum fold_right]; [lra|].
  fold (Rsum (map (fun x => f x * f x) xs)).
  pose proof (Rle_0_sqr (f x)) as H. unfold Rsqr in H. lra.
Qed.

Lemma std_finite (xs : list R) :
  (2 <= length xs)%nat ->
  std (map Fin xs) = Fin (sample_std xs) /\ 0 <= sample_std xs.
Proof.
  intros Hlen. split; [|apply sqrt_pos].
  unfold std. rewrite dropna_finite, length_map.
  destruct (Nat.leb_spec (length xs) 1) as [H|_]; [lia|].
  rewrite fsum_finite. unfold of_nat.
  rewrite div_finite by (apply not_0_INR; lia).
  set (avg := Rsum xs / INR (length xs)).
  assert (E : map (fun a => ((Fin avg - a) * (Fin avg - a))%float)
                  (map Fin xs)
              = map Fin (map (fun x => (avg - x) * (avg - x)) xs)).
  { rewrite !map_map. apply map_ext. intros x. reflexivity. }
  rewrite E, fold_add_finite.
  rewrite div_finite by (apply not_0_INR; lia).
  cbn [fsqrt]. rewrite Rltb_false.
  - unfold sample_std. fold avg. do 3 f_equal. ring.
  - apply Rdiv_nonneg; [|apply lt_0_INR; lia].
    pose proof (Rsum_squares_nonneg (fun x => avg - x) xs). lra.
Qed.

Lemma Rsum_scale (k : R) (xs : list R) :
  Rsum (map (fun x => x * k) xs) = Rsum xs * k.
Proof.
  induction xs as [|x xs IH]; cbn [map Rsum fold_right]; [ring|].
  fold (Rsum (map (fun x => x * k) xs)). fold (Rsum xs). rewrite IH. ring.
Qed.

End FiniteReductions.

(** ** Volatility calibrator: what the rescaling achieves *)

Section Calibration.

Open Scope R_scope.

(** X14.  Variance matching.  For at least two finite returns and a
    finite forecast whose mean is not zero, the calibrated forecast keeps
    the timestamps of the raw one and its mean is exactly the sample
    standard deviation of the returns. *)
Theorem calibrate_volatility_matches_dispersion
  (rs sig : list (Z * R)) :
  (2 <= length rs)%nat ->
  sig <> [] ->
  Rsum (map snd sig) <> 0 ->
  exists out : Series float,
    calibrate_volatility (finite_series rs) (finite_series sig) = Py.Ok out
    /\ index out = index (finite_series sig)
    /\ mean (values out) = Fin (sample_std (map snd rs)).
Proof.
  intros Hrs Hne Hsum. unfold calibrate_volatility.
  eexists. split; [reflexivity|].
  assert (Hlen : (2 <= length (map snd rs))%nat) by (now rewrite length_map).
  destruct (std_finite _ Hlen) as [Hstd _].
  assert (Hne' : map snd sig <> []) by (destruct sig; [contradiction|discriminate]).
  assert (Hn : INR (length (map snd sig)) <> 0).
  { apply not_0_INR. destruct sig; [contradiction|discriminate]. }
  rewrite !finite_series_values, Hstd, (mean_finite Hne').
  rewrite div_finite
    by (intros E; apply Hsum;
        apply (f_equal (fun x => x * INR (length (map snd sig)))) in E;
        unfold Rdiv in E; rewrite Rmult_assoc, Rinv_l, Rmult_1_r in E
          by exact Hn; lra).
  set (k := sample_std (map snd rs)
            / (Rsum (map snd sig) / INR (length (map snd sig)))).
  split.
  - unfold index, mul_scalar. rewrite map_map. apply map_ext. reflexivity.
  - assert (E : values (mul_scalar (finite_series sig) (Fin k))
                = map Fin (map (fun x => x * k) (map snd sig))).
    { unfold values, mul_scalar, finite_series. rewrite !map_map.
      apply map_ext. reflexivity. }
    rewrite E, mean_finite
      by (destruct sig; [contradiction|discriminate]).
    rewrite length_map, Rsum_scale. f_equal. unfold k. field.
    split; assumption.
Qed.

End Calibration.

(** ** Stress scenarios: the statistics of a window with observations *)

Section StressStatistics.

Open Scope R_scope.

Lemma fmin_finite (a b : R) : fmin (Fin a) (Fin b) = Fin (Rmin a b).
Proof.
  unfold fmin, Rmin. cbn [ltb]. unfold Rltb.
  destruct (Rlt_dec b a), (Rle_dec a b); try reflexivity; f_equal; lra.
Qed.

Lemma fold_fmin_finite (xs : list R) (a : R) :
  fold_left fmin (map Fin xs) (Fin a) = Fin (fold_left Rmin xs a).
Proof.
  revert a. induction xs as [|x xs IH]; intros a; [reflexivity|].
  cbn [map fold_left]. now rewrite fmin_finite, IH.
Qed.

Lemma fold_Rmin_le_init (xs : list R) (a : R) : fold_left Rmin xs a <= a.
Proof.
  revert a. induction xs as [|x xs IH]; intros a; cbn [fold_left]; [lra|].
  pose proof (IH (Rmin a x)). pose proof (Rmin_l a x). lra.
Qed.

Lemma fold_Rmin_lower (xs : list R) (a : R) :
  forall x : R, In x (a :: xs) -> fold_left Rmin xs a <= x.
Proof.
  revert a. induction xs as [|y xs IH]; intros a x Hin.
  - destruct Hin as [<-|[]]. cbn. lra.
  - cbn [fold_left]. destruct Hin as [<-|[<-|Hin]].
    + pose proof (fold_Rmin_le_init xs (Rmin a y)).
      pose proof (Rmin_l a y). lra.
    + pose proof (fold_Rmin_le_init xs (Rmin a y)).
      pose proof (Rmin_r a y). lra.
    + apply IH. now right.
Qed.

Lemma fold_Rmin_attained (xs : list R) (a : R) :
  In (fold_left Rmin xs a) (a :: xs).
Proof.
  revert a. induction xs as [|y xs IH]; intros a; [now left|].
  cbn [fold_left]. destruct (IH (Rmin a y)) as [H|H].
  - rewrite <- H. unfold Rmin. destruct (Rle_dec a y);
      [now left|right; now left].
  - right. now right.
Qed.

Definition in_window (start_ end_ : Z) (tv : Z * R) : bool :=
  (start_ <=? fst tv)%Z && (fst tv <=? end_)%Z.

Lemma loc_slice_finite (rs : list (Z * R)) (start_ end_ : Z) :
  loc_slice (finite_series rs) start_ end_ =
  finite_series (filter (in_window start_ end_) rs).
Proof.
  unfold loc_slice, finite_series, in_window.
  induction rs as [|[t v] rs IH]; [reflexivity|].
  cbn [map filter fst]. destruct ((start_ <=? t)%Z && (t <=? end_)%Z);
    cbn [map]; now rewrite IH.
Qed.

(** X15.  On a window that holds at least one observation of a finite,
    increasing return series, the record is finite throughout: [days] is
    the number of observations dated within [start, end] (both ends
    included), the cumulative loss is their sum, the average daily loss is
    that sum divided by [days], and the worst day is a return of the
    window that no return of the window is below. *)
Theorem stress_test_period_statistics
  (rs : list (Z * R)) (start_ end_ : Z) :
  increasing (map fst rs) ->
  (exists tv : Z * R, In tv rs /\ (start_ <= fst tv <= end_)%Z) ->
  let r := stress_test_period (finite_series rs) start_ end_ in
  let window := map snd (filter (in_window start_ end_) rs) in
  exists w : R,
    worst_day r = Fin w
    /\ cumulative_loss r = Fin (Rsum window)
    /\ avg_daily_loss r = Fin (Rsum window / INR (length window))
    /\ days r = Z.of_nat (length window)
    /\ (0 < days r)%Z
    /\ (forall (t : Z) (v : R),
           In (t, v) rs -> (start_ <= t <= end_)%Z -> w <= v)
    /\ (exists t : Z, In (t, w) rs /\ (start_ <= t <= end_)%Z).
Proof.
  intros _ (tv0 & Hin0 & Hw0) r window.
  unfold r, stress_test_period. rewrite loc_slice_finite.
  cbn [worst_day cumulative_loss avg_daily_loss days].
  unfold window. clear window.
  set (win := filter (in_window start_ end_) rs).
  assert (Hwin : forall t v, In (t, v) win <->
                             In (t, v) rs /\ (start_ <= t <= end_)%Z).
  { intros t v. unfold win. rewrite filter_In. unfold in_window.
    cbn [fst]. rewrite andb_true_iff, !Z.leb_le. tauto. }
  assert (Hne : win <> []).
  { destruct tv0 as [t0 v0]. intros E.
    assert (H : In (t0, v0) win) by (apply Hwin; now split).
    rewrite E in H. destruct H. }
  rewrite finite_series_values. unfold finite_series.
  rewrite !length_map.
  destruct (map snd win) as [|x xs] eqn:Exs.
  { destruct win; [contradiction|discriminate]. }
  assert (Hlen : length win = S (length xs)).
  { rewrite <- (length_map snd win), Exs. reflexivity. }
  assert (Hmem : forall y, In y (x :: xs) ->
                           exists t, In (t, y) win).
  { intros y Hy. rewrite <- Exs in Hy. apply in_map_iff in Hy.
    destruct Hy as ([t v] & <- & Hin). now exists t. }
  assert (Hlow : forall y, In y (x :: xs) -> fold_left Rmin xs x <= y)
    by apply fold_Rmin_lower.
  exists (fold_left Rmin xs x).
  split; [|split; [|split; [|split; [|split; [|split]]]]].
  - unfold Pandas.min. rewrite dropna_finite. cbn [map].
    apply fold_fmin_finite.
  - apply fsum_finite.
  - rewrite Hlen. change (S (length xs)) with (length (x :: xs)).
    apply mean_finite. discriminate.
  - reflexivity.
  - lia.
  - intros t v Hin Ht. apply Hlow. rewrite <- Exs.
    apply in_map_iff. exists (t, v). split; [reflexivity|].
    apply Hwin. now split.
  - destruct (Hmem _ (fold_Rmin_attained xs x)) as [t Ht].
    exists t. now apply Hwin.
Qed.

End StressStatistics.

(* ------------------------------------------------------------------ *)
(** * The series the engine is fed with *)

(** ** src/returns.py

    A data frame with a single column is modelled by that column. *)

Module Returns.

Import Float Pandas.

(** [s.shift(1)]: the index stays, every value moves one position down
    and the first one is [NaN]. *)
Definition shift1 (s : Series float) : Series float :=
  combine (index s) (firstn (length s) (NaN :: values s)).

(** [a / b] on two series over the same index *)
Definition div_series (a b : Series float) : Series float :=
  map (fun p => (fst (fst p), (snd (fst p) / snd (snd p))%float))
      (combine a b).

(** [np.log(s)] *)
Definition log_series (s : Series float) : Series float :=
  map (fun tv => (fst tv, log (snd tv))) s.

(** [s.dropna()] *)
Definition dropna_series (s : Series float) : Series float :=
  filter (fun tv => negb (is_nan (snd tv))) s.

Definition compute_log_returns (price : Series float) : Series float :=
  let returns := log_series (div_series price (shift1 price)) in
  dropna_series returns.

End Returns.

(** ** src/realized_vol.py *)

Module RealizedVol.

Import Float Pandas Returns.

(** The function applied to each window: [np.sqrt((x ** 2).sum())]. *)
Definition root_sum_squares (x : list float) : float :=
  fsqrt (fold_left add (map (fun a => (a * a)%float) x) (Fin 0)).

(** [rolling] takes an infinite observation for a missing one. *)
Definition prep_values (vals : list float) : list float :=
  map (fun a => match a with Inf _ => NaN | _ => a end) vals.

(** [s.rolling(window).apply(f, raw=True)]: the window of position [i]
    ends at [i], included, and reaches back over [window] positions; a
    window with fewer than [window] observations that are neither [NaN]
    nor infinite gives [NaN]. *)
Definition rolling_apply (f : list float -> float) (window : nat)
  (vals : list float) : list float :=
  let vals := prep_values vals in
  map (fun i =>
         let w := firstn (S i - (S i - window)) (skipn (S i - window) vals) in
         if (window <=? length (dropna w))%nat then f w else NaN)
      (seq 0 (length vals)).

Definition realized_volatility (returns : Series float) (window : Z)
  : Py.result (Series float) :=
  if (window <? 0)%Z then
    Py.Raise (Py.ValueError "window must be an integer 0 or greater")
  else
    let rv :=
      combine (index returns)
              (rolling_apply root_sum_squares (Z.to_nat window)
                             (values returns)) in
    Py.Ok (dropna_series rv).

End RealizedVol.

Import Returns RealizedVol.

(** ** Log returns *)

Section LogReturns.

Open Scope R_scope.

(** The log returns of the prices [ps] that follow the price [prev]. *)
Fixpoint log_returns_from (prev : R) (ps : list (Z * R)) : list (Z * R) :=
  match ps with
  | [] => []
  | (t, p) :: rest => (t, ln (p / prev)) :: log_returns_from p rest
  end.

Definition lagged (h : float) (s : Series float) : Series float :=
  combine (index s) (firstn (length s) (h :: values s)).

Lemma lagged_cons (h v : float) (t : Z) (s : Series float) :
  lagged h ((t, v) :: s) = (t, h) :: lagged v s.
Proof. reflexivity. Qed.

Lemma log_returns_lagged (prev : R) (ps : list (Z * R)) :
  0 < prev ->
  Forall (fun tv => 0 < snd tv) ps ->
  dropna_series
    (log_series (div_series (finite_series ps)
                            (lagged (Fin prev) (finite_series ps))))
  = finite_series (log_returns_from prev ps).
Proof.
  intros Hprev Hps. revert prev Hprev.
  induction Hps as [|[t p] ps Hp _ IH]; intros prev Hprev; [reflexivity|].
  cbn [snd] in Hp.
  change (finite_series ((t, p) :: ps))
    with ((t, Fin p) :: finite_series ps).
  rewrite lagged_cons.
  cbn [div_series combine map fst snd log_series].
  rewrite div_finite by lra.
  rewrite log_finite by (apply Rdiv_lt_0_compat; lra).
  cbn [dropna_series filter snd is_nan negb log_returns_from].
  change (finite_series ((t, ln (p / prev)) :: log_returns_from p ps))
    with ((t, Fin (ln (p / prev))) :: finite_series (log_returns_from p ps)).
  f_equal. apply (IH p Hp).
Qed.

Lemma last_cons_default {A : Type} (x d : A) (l : list A) :
  last (x :: l) d = last l x.
Proof.
  revert x d. induction l as [|y l IH]; intros x d; [reflexivity|].
  change (last (x :: y :: l) d) with (last (y :: l) d).
  now rewrite (IH y d), (IH y x).
Qed.

Lemma log_returns_telescope (prev : R) (ps : list (Z * R)) :
  0 < prev ->
  Forall (fun tv => 0 < snd tv) ps ->
  Rsum (map snd (log_returns_from prev ps))
  = ln (last (map snd ps) prev) - ln prev.
Proof.
  intros Hprev Hps. revert prev Hprev.
  induction Hps as [|[t p] ps Hp Hrest IH]; intros prev Hprev.
  - cbn. ring.
  - cbn [snd] in Hp. cbn [log_returns_from map snd].
    rewrite last_cons_default.
    unfold Rsum in *. cbn [fold_right]. rewrite (IH p Hp).
    rewrite ln_ratio by lra. ring.
Qed.

End LogReturns.

Section LogReturnsSpec.

Open Scope R_scope.

(** X16.  On positive prices the log returns start at the second
    timestamp (the first price has no predecessor and its entry is
    dropped), each one is [ln (p_t / p_(t-1))], and together they add up
    to the logarithm of the last price over the first: compounding over
    the whole period telescopes. *)
Theorem compute_log_returns_positive_prices
  (t0 : Z) (p0 : R) (ps : list (Z * R)) :
  0 < p0 ->
  Forall (fun tv => 0 < snd tv) ps ->
  let out := compute_log_returns (finite_series ((t0, p0) :: ps)) in
  out = finite_series (log_returns_from p0 ps)
  /\ index out = map fst ps
  /\ fsum (values out) = Fin (ln (last (map snd ps) p0 / p0)).
Proof.
  intros Hp0 Hps out.
  assert (E : out = finite_series (log_returns_from p0 ps)).
  { unfold out, compute_log_returns.
    change (shift1 (finite_series ((t0, p0) :: ps)))
      with (lagged NaN ((t0, Fin p0) :: finite_series ps)).
    change (finite_series ((t0, p0) :: ps))
      with ((t0, Fin p0) :: finite_series ps).
    rewrite lagged_cons.
    cbn [div_series combine map fst snd log_series Float.div log
         dropna_series filter is_nan negb].
    now apply log_returns_lagged. }
  split; [exact E|]. rewrite E. split.
  - rewrite finite_series_index. clear. revert p0.
    induction ps as [|[t p] ps IH]; intros p0; [reflexivity|].
    cbn [log_returns_from map fst]. f_equal. apply IH.
  - rewrite finite_series_values, fsum_finite.
    rewrite (log_returns_telescope Hp0 Hps). f_equal.
    assert (Hl : 0 < last (map snd ps) p0).
    { clear -Hp0 Hps. revert p0 Hp0.
      induction Hps as [|[t p] ps Hp _ IH]; intros p0 Hp0; [exact Hp0|].
      cbn [map snd]. rewrite last_cons_default. now apply IH. }
    now rewrite ln_ratio.
Qed.

End LogReturnsSpec.

(** ** Realized volatility *)

Section RealizedVolatility.

Open Scope R_scope.

(** The square root of the sum of squares. *)
Definition root_ss (ys : list R) : R :=
  sqrt (Rsum (map (fun y => y * y) ys)).

Lemma root_sum_squares_finite (ys : list R) :
  root_sum_squares (map Fin ys) = Fin (root_ss ys).
Proof.
  unfold root_sum_squares, root_ss.
  assert (E : map (fun a => (a * a)%float) (map Fin ys)
              = map Fin (map (fun y => y * y) ys)).
  { rewrite !map_map. reflexivity. }
  rewrite E, fold_add_finite. cbn [fsqrt].
  pose proof (Rsum_squares_nonneg (fun y => y) ys) as H.
  rewrite Rltb_false by lra. do 2 f_equal. ring.
Qed.

(** The entry of position [i] of the rolling reduction. *)
Definition rolling_entry (w : nat) (xs : list R) (i : nat) : float :=
  if (S i <? w)%nat then NaN
  else Fin (root_ss (firstn w (skipn (S i - w) xs))).

Lemma rolling_apply_finite (w : nat) (xs : list R) :
  (1 <= w)%nat ->
  rolling_apply root_sum_squares w (map Fin xs)
  = map (rolling_entry w xs) (seq 0 (length xs)).
Proof.
  intros Hw. unfold rolling_apply.
  assert (Hprep : prep_values (map Fin xs) = map Fin xs).
  { unfold prep_values. rewrite map_map. reflexivity. }
  cbv zeta. rewrite Hprep, length_map.
  apply map_ext_in. intros i Hi. apply in_seq in Hi.
  rewrite skipn_map, firstn_map, dropna_finite, length_map.
  rewrite length_firstn, length_skipn. unfold rolling_entry.
  destruct (Nat.ltb_spec (S i) w) as [Hlt|Hge].
  - destruct (Nat.leb_spec
                w (Nat.min (S i - (S i - w)) (length xs - (S i - w))))
      as [H|_]; [lia|reflexivity].
  - destruct (Nat.leb_spec
                w (Nat.min (S i - (S i - w)) (length xs - (S i - w))))
      as [_|H]; [|lia].
    replace (S i - (S i - w))%nat with w by lia.
    apply root_sum_squares_finite.
Qed.

Lemma filter_map_seq_from {A : Type} (h : nat -> A) (P : A -> bool)
  (m n : nat) :
  (forall i : nat, (i < m)%nat -> P (h i) = false) ->
  (forall i : nat, (m <= i)%nat -> P (h i) = true) ->
  filter P (map h (seq 0 n)) = map h (seq m (n - m)).
Proof.
  intros Hlo Hhi.
  assert (G : forall len start : nat,
             filter P (map h (seq start len))
             = map h (seq (Nat.max start m) (start + len - Nat.max start m))).
  { induction len as [|len IH]; intros start.
    - replace (start + 0 - Nat.max start m)%nat with 0%nat by lia.
      reflexivity.
    - cbn [seq map filter]. rewrite IH.
      destruct (Nat.lt_ge_cases start m) as [Hs|Hs].
      + rewrite (Hlo start Hs).
        replace (Nat.max (S start) m) with (Nat.max start m) by lia.
        f_equal. f_equal. lia.
      + rewrite (Hhi start Hs).
        replace (Nat.max start m) with start by lia.
        replace (Nat.max (S start) m) with (S start) by lia.
        replace (start + S len - start)%nat with (S len) by lia.
        replace (S start + len - S start)%nat with len by lia.
        reflexivity. }
  rewrite (G n 0%nat). replace (Nat.max 0 m) with m by lia.
  reflexivity.
Qed.

Lemma combine_nth_seq2 {A B : Type} (da : A) (db : B)
  (u : list A) (v : list B) :
  (length v <= length u)%nat ->
  combine u v = map (fun k => (nth k u da, nth k v db)) (seq 0 (length v)).
Proof.
  revert v. induction u as [|x u IH]; intros [|y v] Hlen; simpl in *;
    try reflexivity; try lia.
  f_equal. rewrite <- seq_shift, map_map. apply IH. lia.
Qed.

Lemma seq_from (m len : nat) :
  seq m len = map (fun k => (m + k)%nat) (seq 0 len).
Proof.
  revert m. induction len as [|len IH]; intros m; [reflexivity|].
  cbn [seq map]. rewrite Nat.add_0_r. f_equal.
  rewrite (IH (S m)), (IH 1%nat), map_map.
  apply map_ext. intros k. lia.
Qed.

Lemma skipn_nth_seq {A : Type} (d : A) (m : nat) (ts : list A) :
  skipn m ts = map (fun k => nth (m + k) ts d) (seq 0 (length ts - m)).
Proof.
  revert ts. induction m as [|m IH]; intros ts.
  - cbn [skipn Nat.add]. rewrite Nat.sub_0_r.
    induction ts as [|x ts IHts]; [reflexivity|].
    cbn [length seq map nth]. f_equal.
    rewrite <- seq_shift, map_map. exact IHts.
  - destruct ts as [|x ts]; [reflexivity|].
    cbn [skipn length Nat.sub]. rewrite (IH ts).
    apply map_ext. intros k. reflexivity.
Qed.

(** X17.  For a window of [W >= 1] days over finite returns the realized
    volatility has [max 0 (n - W + 1)] entries, the first one at the
    timestamp of position [W - 1]; each is the square root of the sum of
    the squared returns of the [W] days that end with its own day, that
    day included, and so is never negative. *)
Theorem realized_volatility_finite (rs : list (Z * R)) (W : Z) :
  (1 <= W)%Z ->
  let w := Z.to_nat W in
  let n := length rs in
  exists out : list (Z * R),
    realized_volatility (finite_series rs) W = Py.Ok (finite_series out)
    /\ length out = (S n - w)%nat
    /\ map fst out = skipn (w - 1) (map fst rs)
    /\ forall k : nat,
        (k < S n - w)%nat ->
        nth_error out k =
          Some (nth (k + w - 1) (map fst rs) 0%Z,
                root_ss (firstn w (skipn k (map snd rs))))
        /\ 0 <= root_ss (firstn w (skipn k (map snd rs))).
Proof.
  intros HW w n.
  assert (Hw : (1 <= w)%nat) by (unfold w; lia).
  set (entry := fun k : nat =>
                  (nth (k + w - 1) (map fst rs) 0%Z,
                   root_ss (firstn w (skipn k (map snd rs))))).
  exists (map entry (seq 0 (S n - w))).
  unfold realized_volatility.
  destruct (Z.ltb_spec W 0) as [H|_]; [lia|]. fold w.
  rewrite finite_series_values, finite_series_index.
  rewrite (rolling_apply_finite _ Hw), length_map. fold n.
  split; [|split; [|split]].
  - f_equal.
    rewrite (combine_nth_seq2 0%Z NaN)
      by (rewrite !length_map, length_seq; unfold n; lia).
    rewrite length_map, length_seq.
    unfold dropna_series.
    rewrite (map_ext_in
               (fun k => (nth k (map fst rs) 0%Z,
                          nth k (map (rolling_entry w (map snd rs))
                                     (seq 0 n)) NaN))
               (fun k => (nth k (map fst rs) 0%Z,
                          rolling_entry w (map snd rs) k))).
    2:{ intros k Hk. apply in_seq in Hk. f_equal.
        rewrite (nth_indep _ NaN (rolling_entry w (map snd rs) 0%nat))
          by (rewrite length_map, length_seq; lia).
        rewrite map_nth, seq_nth by lia. reflexivity. }
    rewrite (@filter_map_seq_from _ _ _ (w - 1) n).
    + unfold finite_series. rewrite map_map.
      replace (n - (w - 1))%nat with (S n - w)%nat by lia.
      rewrite (seq_from (w - 1) (S n - w)), !map_map.
      apply map_ext. intros k. unfold entry, rolling_entry. cbn [fst snd].
      destruct (Nat.ltb_spec (S (w - 1 + k)) w) as [Hc|_]; [lia|].
      clear entry. replace (w - 1 + k)%nat with (k + w - 1)%nat by lia.
      replace (S (k + w - 1) - w)%nat with k by lia. reflexivity.
    + intros i Hi. cbn [snd]. unfold rolling_entry.
      destruct (Nat.ltb_spec (S i) w) as [_|Hc]; [reflexivity|lia].
    + intros i Hi. cbn [snd]. unfold rolling_entry.
      destruct (Nat.ltb_spec (S i) w) as [Hc|_]; [lia|reflexivity].
  - now rewrite length_map, length_seq.
  - unfold entry. rewrite map_map. cbn [fst].
    rewrite (skipn_nth_seq 0%Z (w - 1) (map fst rs)), length_map. fold n.
    replace (n - (w - 1))%nat with (S n - w)%nat by lia.
    apply map_ext. intros k.
    replace (w - 1 + k)%nat with (k + w - 1)%nat by lia. reflexivity.
  - intros k Hk. split.
    + rewrite nth_error_map, nth_error_seq.
      destruct (Nat.ltb_spec k (S n - w)); [reflexivity|lia].
    + apply sqrt_pos.
Qed.

End RealizedVolatility.

(* ------------------------------------------------------------------ *)
(** * Walk-forward forecasting *)

(** ** src/ml_models.py

    The regressors and the error metric come from scikit-learn and
    XGBoost: they are an interface.  [fit_predict kind X_train y_train
    X_test] stands for building the regressor of that kind, fitting it
    and predicting the test rows. *)

Inductive regressor : Type := RandomForest | XGBoost.

Class Learner : Type := {
  fit_predict :
    regressor -> list (list Float.float) -> list Float.float ->
    list (list Float.float) -> Py.result (list Float.float);
  mean_squared_error :
    list Float.float -> list Float.float -> Py.result Float.float
}.

Module MlModels.

Import Float Pandas.

(** [range(lo, hi, step)] *)
Definition range3 (lo hi step : Z) : Py.result (list Z) :=
  if (step =? 0)%Z then
    Py.Raise (Py.ValueError "range() arg 3 must not be zero")
  else if (0 <? step)%Z then
    Py.Ok (map (fun k => (lo + Z.of_nat k * step)%Z)
               (seq 0 (Z.to_nat ((hi - lo + step - 1) / step))))
  else
    Py.Ok (map (fun k => (lo + Z.of_nat k * step)%Z)
               (seq 0 (Z.to_nat ((lo - hi - step - 1) / (- step))))).

Section WithLearner.

Context {learner : Learner}.

(** A row of the data frame: the feature columns and the ["target"]
    column. *)
Definition row : Type := (list float * float)%type.

Definition walk_forward_ml_forecast
  (data : Series row) (model_type : string) (window step : Z)
  : Py.result (list float * list float * float) :=
  let X := map fst (values data) in
  let y := map snd (values data) in
  steps <- range3 window (Z.of_nat (length X)) step ;;
  pa <- fold_left
          (fun acc i =>
             pa <- acc ;;
             let X_train := Py.slice X (i - window) i in
             let y_train := Py.slice y (i - window) i in
             let X_test := Py.slice X i (i + step) in
             let y_test := Py.slice y i (i + step) in
             model <-
               (if String.eqb model_type "rf" then Py.Ok RandomForest
                else if String.eqb model_type "xgb" then Py.Ok XGBoost
                else Py.Raise (Py.ValueError "Invalid model_type")) ;;
             preds <- fit_predict model X_train y_train X_test ;;
             Py.Ok (fst pa ++ preds, snd pa ++ y_test))
          steps (Py.Ok ([], [])) ;;
  mse <- mean_squared_error (snd pa) (fst pa) ;;
  Py.Ok (fst pa, snd pa, fsqrt mse).

End WithLearner.

End MlModels.

Import MlModels.

Section WalkForward.

Context {learner : Learner}.

Definition choose_model (model_type : string) : Py.result regressor :=
  if String.eqb model_type "rf" then Py.Ok RandomForest
  else if String.eqb model_type "xgb" then Py.Ok XGBoost
  else Py.Raise (Py.ValueError "Invalid model_type").

(** One round of the walk: fit on the window before [i], predict the
    [step] rows from [i] on. *)
Definition walk_round (X : list (list float)) (y : list float)
  (model_type : string) (window step : Z)
  (acc : Py.result (list float * list float)) (i : Z)
  : Py.result (list float * list float) :=
  pa <- acc ;;
  model <- choose_model model_type ;;
  preds <- fit_predict model (Py.slice X (i - window) i)
                       (Py.slice y (i - window) i)
                       (Py.slice X i (i + step)) ;;
  Py.Ok (fst pa ++ preds, snd pa ++ Py.slice y i (i + step)).

Lemma walk_forward_ml_forecast_eval
  (data : Series row) (model_type : string) (window step : Z) :
  walk_forward_ml_forecast data model_type window step =
  let X := map fst (values data) in
  let y := map snd (values data) in
  (steps <- range3 window (Z.of_nat (length X)) step ;;
   pa <- fold_left (walk_round X y model_type window step) steps
                   (Py.Ok ([], [])) ;;
   mse <- mean_squared_error (snd pa) (fst pa) ;;
   Py.Ok (fst pa, snd pa, fsqrt mse)).
Proof. reflexivity. Qed.

Lemma walk_rounds_raise (X : list (list float)) (y : list float)
  (model_type : string) (window step : Z) (steps : list Z) (e : Py.exn) :
  fold_left (walk_round X y model_type window step) steps (Py.Raise e)
  = Py.Raise e.
Proof. induction steps as [|i steps IH]; [reflexivity|exact IH]. Qed.

Lemma walk_rounds_actuals (X : list (list float)) (y : list float)
  (model_type : string) (window step : Z) (steps : list Z)
  (acc pa : list float * list float) :
  fold_left (walk_round X y model_type window step) steps (Py.Ok acc)
  = Py.Ok pa ->
  snd pa = snd acc
           ++ concat (map (fun i => Py.slice y i (i + step)) steps).
Proof.
  revert acc. induction steps as [|i steps IH]; intros acc H.
  - injection H as <-. cbn. now rewrite app_nil_r.
  - cbn [fold_left] in H.
    destruct (walk_round X y model_type window step (Py.Ok acc) i)
      as [acc'|e] eqn:E.
    + rewrite (IH acc' H). cbn [map concat]. rewrite app_assoc. f_equal.
      unfold walk_round in E. cbn [Py.bind] in E.
      destruct (choose_model model_type); [|discriminate].
      cbn [Py.bind] in E.
      destruct (fit_predict _ _ _ _); [|discriminate].
      injection E as <-. reflexivity.
    + rewrite walk_rounds_raise in H. discriminate.
Qed.

Lemma walk_rounds_lengths (X : list (list float)) (y : list float)
  (model_type : string) (window step : Z) (steps : list Z)
  (acc pa : list float * list float) :
  (forall (k : regressor) (Xt : list (list float)) (yt : list float)
          (Xs : list (list float)) (ps : list float),
      fit_predict k Xt yt Xs = Py.Ok ps -> length ps = length Xs) ->
  length X = length y ->
  length (fst acc) = length (snd acc) ->
  fold_left (walk_round X y model_type window step) steps (Py.Ok acc)
  = Py.Ok pa ->
  length (fst pa) = length (snd pa).
Proof.
  intros Hfit HXy. revert acc.
  induction steps as [|i steps IH]; intros acc Hacc H.
  - now injection H as <-.
  - cbn [fold_left] in H.
    destruct (walk_round X y model_type window step (Py.Ok acc) i)
      as [acc'|e] eqn:E.
    + apply (IH acc'); [|exact H].
      unfold walk_round in E. cbn [Py.bind] in E.
      destruct (choose_model model_type); [|discriminate].
      cbn [Py.bind] in E.
      destruct (fit_predict _ _ _ _) as [ps|] eqn:Ef; [|discriminate].
      injection E as <-. cbn [fst snd].
      rewrite !length_app, (Hfit _ _ _ _ _ Ef), Hacc. f_equal.
      unfold Py.slice. rewrite !length_firstn, !length_skipn, HXy.
      reflexivity.
    + rewrite walk_rounds_raise in H. discriminate.
Qed.

(** The test blocks [l[i : i + s]] for [i = start, start + s, ...] cover
    the positions from [start] on, each once and in order. *)
Lemma test_blocks_partition {A : Type} (l : list A) (s : Z) :
  (0 < s)%Z ->
  forall (m : nat) (start : Z),
    (0 <= start)%Z ->
    m = Z.to_nat ((Z.of_nat (length l) - start + s - 1) / s) ->
    concat (map (fun i => Py.slice l i (i + s))
                (map (fun k => (start + Z.of_nat k * s)%Z) (seq 0 m)))
    = skipn (Z.to_nat start) l.
Proof.
  intros Hs. induction m as [|m IH]; intros start Hstart Hm.
  - cbn. symmetry. apply skipn_all2.
    assert (H : ((Z.of_nat (length l) - start + s - 1) / s <= 0)%Z) by lia.
    assert (H' : (Z.of_nat (length l) - start + s - 1 < s)%Z).
    { destruct (Z.lt_ge_cases (Z.of_nat (length l) - start + s - 1) s)
        as [Hlt|Hge]; [exact Hlt|].
      pose proof (Z.div_le_mono _ _ s Hs Hge) as Hd.
      rewrite Z.div_same in Hd by lia. lia. }
    lia.
  - assert (Hq : (1 <= (Z.of_nat (length l) - start + s - 1) / s)%Z) by lia.
    assert (Hlt : (start < Z.of_nat (length l))%Z).
    { destruct (Z.lt_ge_cases start (Z.of_nat (length l))) as [H|H];
        [exact H|].
      assert (Hsmall : (0 <= Z.of_nat (length l) - start + s - 1 < s)%Z
                       \/ (Z.of_nat (length l) - start + s - 1 < 0)%Z)
        by lia.
      destruct Hsmall as [Hsm|Hneg].
      - rewrite Z.div_small in Hq by exact Hsm. lia.
      - pose proof (Z.div_lt_upper_bound
                      (Z.of_nat (length l) - start + s - 1) s 0 Hs
                      ltac:(lia)). lia. }
    cbn [seq map concat].
    rewrite <- seq_shift, (map_map S).
    rewrite (map_ext (fun k => (start + Z.of_nat (S k) * s)%Z)
                     (fun k => (start + s + Z.of_nat k * s)%Z))
      by (intros k; lia).
    rewrite (IH (start + s)%Z) by
      (try lia;
       replace (Z.of_nat (length l) - (start + s) + s - 1)%Z
         with (Z.of_nat (length l) - start + s - 1 + (-1) * s)%Z by lia;
       rewrite Z.div_add by lia; lia).
    replace (start + Z.of_nat 0 * s)%Z with start by lia.
    unfold Py.slice, Py.clip.
    destruct (Z.ltb_spec start 0) as [H|_]; [lia|].
    destruct (Z.ltb_spec (start + s) 0) as [H|_]; [lia|].
    rewrite (Z.min_l start) by lia.
    set (L := skipn (Z.to_nat start) l).
    replace (skipn (Z.to_nat (start + s)) l)
      with (skipn (Z.to_nat s) L)
      by (unfold L; rewrite skipn_skipn; f_equal; lia).
    assert (HL : length L = (length l - Z.to_nat start)%nat)
      by (unfold L; apply length_skipn).
    destruct (Z.le_gt_cases (start + s) (Z.of_nat (length l))) as [Hb|Hb].
    + rewrite Z.min_l by lia.
      replace (Z.to_nat (start + s - start)) with (Z.to_nat s) by lia.
      apply firstn_skipn.
    + rewrite Z.min_r by lia.
      rewrite firstn_all2 by lia. rewrite skipn_all2 by lia.
      apply app_nil_r.
Qed.

End WalkForward.

Section WalkForwardSpec.

Context {learner : Learner}.

Lemma range3_forward (lo hi step : Z) :
  (0 < step)%Z ->
  range3 lo hi step =
  Py.Ok (map (fun k => (lo + Z.of_nat k * step)%Z)
             (seq 0 (Z.to_nat ((hi - lo + step - 1) / step)))).
Proof.
  intros H. unfold range3.
  destruct (Z.eqb_spec step 0) as [E|_]; [lia|].
  destruct (Z.ltb_spec 0 step) as [_|E]; [reflexivity|lia].
Qed.

(** X18.  Whenever the walk-forward forecast returns (window not
    negative, step positive), the actuals it hands back are exactly the
    targets after the warm-up window, each once and in their order; and
    if every regressor answers with one prediction per test row, there
    are as many predictions as actuals. *)
Theorem walk_forward_ml_forecast_actuals
  (data : Series row) (model_type : string) (window step : Z)
  (predictions actuals : list float) (rmse : float) :
  (0 <= window)%Z -> (0 < step)%Z ->
  walk_forward_ml_forecast data model_type window step
    = Py.Ok (predictions, actuals, rmse) ->
  actuals = skipn (Z.to_nat window) (map snd (values data))
  /\ ((forall (k : regressor) (Xt : list (list float)) (yt : list float)
              (Xs : list (list float)) (ps : list float),
          fit_predict k Xt yt Xs = Py.Ok ps -> length ps = length Xs) ->
      length predictions = length actuals).
Proof.
  intros Hw Hs H. rewrite walk_forward_ml_forecast_eval in H.
  cbv zeta in H. rewrite (range3_forward _ _ Hs) in H. cbn [Py.bind] in H.
  set (X := map fst (values data)) in *.
  set (y := map snd (values data)) in *.
  set (steps := map _ (seq 0 _)) in H.
  destruct (fold_left (walk_round X y model_type window step) steps
                      (Py.Ok ([], []))) as [pa|e] eqn:E; [|discriminate].
  cbn [Py.bind] in H.
  destruct (mean_squared_error (snd pa) (fst pa)); [|discriminate].
  cbn [Py.bind] in H. injection H as <- <- _.
  split.
  - rewrite (walk_rounds_actuals _ _ _ _ _ _ _ E). cbn [snd app].
    unfold steps.
    assert (Hlen : length X = length y)
      by (unfold X, y; now rewrite !length_map).
    rewrite Hlen. now apply test_blocks_partition.
  - intros Hfit.
    eapply walk_rounds_lengths; [exact Hfit| | |exact E].
    + unfold X, y. now rewrite !length_map.
    + reflexivity.
Qed.

(** X19.  The model type is only looked at inside the loop.  With more
    rows than the window an unknown type is a [ValueError] in the first
    round, before anything is fitted; with no more rows than the window
    the loop does not run and the unknown type goes unnoticed: the call
    ends in the error metric of two empty lists. *)
Theorem walk_forward_ml_forecast_unknown_model
  (data : Series row) (model_type : string) (window step : Z) :
  model_type <> "rf"%string -> model_type <> "xgb"%string ->
  (0 < step)%Z ->
  ((window < Z.of_nat (length data))%Z ->
   walk_forward_ml_forecast data model_type window step
   = Py.Raise (Py.ValueError "Invalid model_type"))
  /\ ((Z.of_nat (length data) <= window)%Z ->
      walk_forward_ml_forecast data model_type window step
      = (mse <- mean_squared_error [] [] ;; Py.Ok ([], [], fsqrt mse))).
Proof.
  intros Hrf Hxgb Hs. rewrite walk_forward_ml_forecast_eval. cbv zeta.
  rewrite (range3_forward _ _ Hs). cbn [Py.bind].
  rewrite length_map, values_length. unfold row in *.
  assert (Hc : choose_model model_type
               = Py.Raise (Py.ValueError "Invalid model_type")).
  { unfold choose_model.
    destruct (String.eqb_spec model_type "rf"); [contradiction|].
    destruct (String.eqb_spec model_type "xgb"); [contradiction|].
    reflexivity. }
  split; intros Hn.
  - assert (Hq : (1 <= (Z.of_nat (length data) - window + step - 1) / step)%Z).
    { apply Z.div_le_lower_bound; lia. }
    assert (Hm : exists m : nat,
               Z.to_nat ((Z.of_nat (length data) - window + step - 1) / step)
               = S m).
    { exists (Nat.pred (Z.to_nat ((Z.of_nat (length data) - window + step - 1)
                                  / step))). lia. }
    destruct Hm as [m Hm]. rewrite Hm.
    cbn [seq map fold_left].
    assert (Hr : forall X y acc i,
               walk_round X y model_type window step (Py.Ok acc) i
               = Py.Raise (Py.ValueError "Invalid model_type")).
    { intros X y acc i. unfold walk_round. cbn [Py.bind]. now rewrite Hc. }
    now rewrite Hr, walk_rounds_raise.
  - assert (Hq : ((Z.of_nat (length data) - window + step - 1) / step <= 0)%Z).
    { assert (H : ((Z.of_nat (length data) - window + step - 1) / step < 1)%Z);
        [|lia].
      apply Z.div_lt_upper_bound; lia. }
    replace (Z.to_nat ((Z.of_nat (length data) - window + step - 1) / step))
      with 0%nat by lia.
    reflexivity.
Qed.

End WalkForwardSpec.

(* ------------------------------------------------------------------ *)
(** * The sign of the Normal VaR and the effect of a larger VaR *)

Section NormalSign.

Open Scope R_scope.

Variable N : StandardNormal.

Lemma pdf_even (z : R) : pdf N (- z) = pdf N z.
Proof.
  rewrite !pdf_gaussian. unfold gauss.
  now replace (- z * - z) with (z * z) by ring.
Qed.

Lemma cdf_mirror_sum (t : R) : cdf N t + cdf N (- t) = 2 * cdf N 0.
Proof.
  set (S := fun u => cdf N u + cdf N (- u)).
  assert (D : forall u, derivable_pt_lim S u 0).
  { intros u.
    assert (Dm : derivable_pt_lim (comp (cdf N) (- id)%F) u
                   (pdf N (- u) * - 1)).
    { apply derivable_pt_lim_comp.
      - apply derivable_pt_lim_opp, derivable_pt_lim_id.
      - apply cdf_derivative. }
    replace 0 with (pdf N u + pdf N (- u) * - 1)
      by (rewrite pdf_even; ring).
    apply (derivable_pt_lim_plus _ _ _ _ _ (cdf_derivative N u) Dm). }
  assert (E : S t = S 0).
  { destruct (Rtotal_order 0 t) as [Ht|[<-|Ht]].
    - destruct (MVT_cor2 S (fun _ => 0) 0 t Ht) as (c & Hc & _);
        [intros; apply D|lra].
    - reflexivity.
    - destruct (MVT_cor2 S (fun _ => 0) t 0 Ht) as (c & Hc & _);
        [intros; apply D|lra]. }
  unfold S in E. rewrite Ropp_0 in E. lra.
Qed.

Lemma cdf_at_0 : cdf N 0 = 1 / 2.
Proof.
  assert (H : forall eps, 0 < eps -> Rabs (2 * cdf N 0 - 1) < 2 * eps).
  { intros eps Heps.
    destruct (cdf_limit N Heps) as [M1 H1].
    destruct (cdf_limit_low N Heps) as [M2 H2].
    set (t := Rmax M1 (- M2) + 1).
    assert (Ht1 : M1 < t) by (unfold t; pose proof (Rmax_l M1 (- M2)); lra).
    assert (Ht2 : - t < M2)
      by (unfold t; pose proof (Rmax_r M1 (- M2)); lra).
    specialize (H1 t Ht1). specialize (H2 (- t) Ht2).
    rewrite <- (cdf_mirror_sum t).
    replace (cdf N t + cdf N (- t) - 1)
      with ((cdf N t - 1) + cdf N (- t)) by ring.
    pose proof (Rabs_triang (cdf N t - 1) (cdf N (- t))). lra. }
  destruct (Req_dec (2 * cdf N 0 - 1) 0) as [E|E]; [lra|exfalso].
  pose proof (Rabs_pos_lt _ E) as Hpos.
  specialize (H (Rabs (2 * cdf N 0 - 1) / 2) ltac:(lra)). lra.
Qed.

Lemma ppf_sign (alpha : R) :
  0 < alpha < 1 ->
  (1 / 2 < alpha -> 0 < ppf N alpha)
  /\ (alpha < 1 / 2 -> ppf N alpha < 0)
  /\ (alpha = 1 / 2 -> ppf N alpha = 0).
Proof.
  intros Ha. pose proof (ppf_inverse N Ha) as Hi.
  pose proof cdf_at_0 as H0.
  destruct (Rtotal_order (ppf N alpha) 0) as [Hz|[Hz|Hz]].
  - pose proof (cdf_increasing N Hz). repeat split; intros; lra.
  - rewrite Hz in Hi. repeat split; intros; lra.
  - pose proof (cdf_increasing N Hz). repeat split; intros; lra.
Qed.

End NormalSign.

Section NormalVaRSign.

Open Scope R_scope.

Lemma parametric_var_cvar_normal_eval (scipy : SciPy) (N : StandardNormal)
  (returns : Series float) (sig : list (Z * R)) (alpha : R)
  (nu : option float) :
  models_normal scipy N ->
  0 < alpha < 1 ->
  parametric_var_cvar returns (finite_series sig) (Fin alpha) "normal" nu =
  (aligned_returns <- loc returns (index (finite_series sig)) ;;
   Py.Ok (aligned_returns,
          finite_series (map (fun tv => (fst tv, ppf N alpha * snd tv)) sig),
          finite_series
            (map (fun tv => (fst tv,
                             pdf N (ppf N alpha) / (1 - alpha) * snd tv))
                 sig))).
Proof.
  intros [Hppf Hpdf] Ha.
  unfold parametric_var_cvar. cbn [String.eqb Ascii.eqb Bool.eqb Py.bind].
  rewrite (Hppf alpha Ha), Hpdf.
  assert (Ev : scalar_mul (Fin (ppf N alpha)) (finite_series sig)
               = finite_series
                   (map (fun tv => (fst tv, ppf N alpha * snd tv)) sig)).
  { unfold scalar_mul, finite_series. rewrite !map_map.
    apply map_ext. intros [t v]. reflexivity. }
  assert (Ec : scalar_mul (Fin (pdf N (ppf N alpha)) / (Fin 1 - Fin alpha))%float
                          (finite_series sig)
               = finite_series
                   (map (fun tv =>
                           (fst tv,
                            pdf N (ppf N alpha) / (1 - alpha) * snd tv))
                        sig)).
  { unfold scalar_mul, finite_series. rewrite !map_map.
    apply map_ext. intros [t v]. cbn [fst snd Float.sub Float.neg add div].
    rewrite Reqb_false by lra. reflexivity. }
  rewrite Ev, Ec. reflexivity.
Qed.

(** X20.  Under the Normal family the VaR multiplier [z], the standard
    normal quantile at [alpha], is positive above the 50% level, 0 at 50%
    and negative below.  So with positive volatilities the VaR [z * sigma]
    is a loss magnitude only from the 50% level on: it is never negative
    there and never positive at a lower level, while the CVaR is never
    negative at any level. *)
Theorem normal_var_sign (scipy : SciPy) (N : StandardNormal)
  (returns : Series float) (sig : list (Z * R)) (alpha : R)
  (nu : option float) :
  models_normal scipy N ->
  0 < alpha < 1 ->
  Forall (fun tv => 0 < snd tv) sig ->
  let z := ppf N alpha in
  let var := map (fun tv => (fst tv, z * snd tv)) sig in
  let cvar :=
    map (fun tv => (fst tv, pdf N z / (1 - alpha) * snd tv)) sig in
  parametric_var_cvar returns (finite_series sig) (Fin alpha) "normal" nu =
    (aligned_returns <- loc returns (index (finite_series sig)) ;;
     Py.Ok (aligned_returns, finite_series var, finite_series cvar))
  /\ ((1 / 2 < alpha -> 0 < z) /\ (alpha < 1 / 2 -> z < 0)
      /\ (alpha = 1 / 2 -> z = 0))
  /\ Forall (fun tc => 0 <= snd tc) cvar
  /\ Forall (fun tv =>
               (1 / 2 <= alpha -> 0 <= snd tv)
               /\ (alpha <= 1 / 2 -> snd tv <= 0)) var.
Proof.
  intros Hm Ha Hsig z var cvar.
  split; [now apply parametric_var_cvar_normal_eval|].
  pose proof (ppf_sign N Ha) as (Hpos & Hneg & Hzero). fold z in Hpos, Hneg, Hzero.
  pose proof (pdf_pos N z) as Hpdf.
  split; [repeat split; assumption|]. split.
  - apply Forall_map. apply Forall_impl with (2 := Hsig).
    intros [t v] Hv. cbn [snd] in *.
    apply Rmult_le_pos; [apply Rdiv_nonneg; lra|lra].
  - apply Forall_map. apply Forall_impl with (2 := Hsig).
    intros [t v] Hv. cbn [snd] in *. split; intros H.
    + destruct (Rle_lt_or_eq_dec _ _ H) as [H'|H'].
      * apply Rmult_le_pos; [apply Rlt_le; now apply Hpos|lra].
      * rewrite (Hzero (eq_sym H')). lra.
    + destruct (Rle_lt_or_eq_dec _ _ H) as [H'|H'].
      * specialize (Hneg H'). nra.
      * rewrite (Hzero H'). lra.
Qed.

End NormalVaRSign.

(** ** The tail mean against the quantile *)

Section NormalTailOrder.

Open Scope R_scope.





End NormalTailOrder.

(** ** A larger VaR never adds a breach *)

Section BreachMonotone.

Open Scope R_scope.

Lemma sum_bool_monotone (u v : list bool) :
  Forall2 (fun a b => a = true -> b = true) u v ->
  (sum_bool u <= sum_bool v)%Z.
Proof.
  induction 1 as [|a b u v Hab _ IH]; [lia|].
  rewrite !sum_bool_cons.
  destruct a, b; try lia; discriminate (Hab eq_refl).
Qed.

(** X21.  Raising the VaR at some timestamps and lowering it at none
    cannot create a breach: every timestamp flagged under the larger VaR
    is flagged under the smaller one, so the number of breaches does not
    go up. *)
Theorem var_breaches_monotone (rs vs vs' : list (Z * R)) :
  map fst rs = map fst vs ->
  map fst rs = map fst vs' ->
  Forall2 (fun v v' => snd v <= snd v') vs vs' ->
  exists (b b' : Series bool) (rate rate' : float),
    var_breaches (finite_series rs) (finite_series vs) = Py.Ok (b, rate)
    /\ var_breaches (finite_series rs) (finite_series vs') = Py.Ok (b', rate')
    /\ Forall2 (fun x' x => snd x' = true -> snd x = true) b' b
    /\ (sum_bool (values b') <= sum_bool (values b))%Z.
Proof.
  intros Hi Hi' Hle.
  destruct (var_breaches_eval (finite_series rs) (finite_series vs))
    as (b & Hb & Hv & _); [now rewrite !finite_series_index|].
  destruct (var_breaches_eval (finite_series rs) (finite_series vs'))
    as (b' & Hb' & Hv' & _); [now rewrite !finite_series_index|].
  exists b, b', (mean_bool (values b)), (mean_bool (values b')).
  split; [exact Hb|]. split; [exact Hb'|].
  assert (Hflags : Forall2 (fun x' x : bool => x' = true -> x = true)
                           (values b') (values b)).
  { rewrite Hv, Hv'. unfold breach_flags. rewrite !finite_series_values.
    assert (Hlen : length rs = length vs)
      by (rewrite <- (length_map fst rs), Hi; apply length_map).
    clear Hi Hi' Hb Hb' Hv Hv'. revert rs Hlen.
    induction Hle as [|[t v] [t' v'] vs vs' Hvv _ IH];
      intros [|[tr r] rs] Hlen; try discriminate; cbn [map combine snd fst].
    - constructor.
    - constructor; [|apply IH; simpl in Hlen; lia].
      cbn [snd] in Hvv. cbn [Float.neg]. rewrite !ltb_finite. lra. }
  split; [|now apply sum_bool_monotone].
  clear -Hflags. unfold values in Hflags.
  revert b Hflags. induction b' as [|x' b' IH]; intros [|x b] H;
    inversion H; subst; constructor; auto.
Qed.

End BreachMonotone.

(* ------------------------------------------------------------------ *)
(** * The further properties at concrete inputs *)

Section MoreExamples.

Open Scope R_scope.

Definition one_breach_of_two : Series bool := [(0%Z, false); (1%Z, true)].

Lemma kupiec_statistic_outside_unit_interval_example :
  (0 < sum_bool (values one_breach_of_two)
   < Z.of_nat (length one_breach_of_two))%Z
  /\ k_LR_stat (kupiec_pof_test (scipy := reference_scipy)
                  one_breach_of_two (Fin 1)) = Inf false.
Proof.
  assert (Hx : (0 < sum_bool (values one_breach_of_two)
                < Z.of_nat (length one_breach_of_two))%Z)
    by (vm_compute; split; reflexivity).
  split; [exact Hx|].
  exact (proj1 (@kupiec_statistic_outside_unit_interval reference_scipy
                  one_breach_of_two 1 Hx) (or_intror eq_refl)).
Defined.

Lemma christoffersen_test_constant_series_example :
  (2 <= length quiet_breaches)%nat
  /\ Forall (fun b => b = false) (values quiet_breaches)
  /\ christoffersen_test (scipy := reference_scipy) quiet_breaches =
     Py.Ok {| c_LR_stat := Fin 0;
              c_p_value :=
                (Fin 1 - chi2_cdf (SciPy := reference_scipy) (Fin 0) 1)%float |}.
Proof.
  assert (Hl : (2 <= length quiet_breaches)%nat) by (simpl; lia).
  assert (Hc : Forall (fun b => b = false) (values quiet_breaches))
    by (repeat constructor).
  split; [exact Hl|]. split; [exact Hc|].
  exact (proj1 (@christoffersen_test_constant_series reference_scipy
                  quiet_breaches false (Fin 0.99) Hl Hc)).
Defined.

Lemma rolling_basel_traffic_light_negative_window_example :
  (-1 < 0)%Z
  /\ exists msg : string,
       rolling_basel_traffic_light clustered_breaches (-1)
       = Py.Raise (Py.ValueError msg).
Proof.
  assert (H : (-1 < 0)%Z) by lia.
  split; [exact H|].
  exact (@rolling_basel_traffic_light_negative_window
           clustered_breaches (-1) H).
Defined.

Lemma rolling_basel_traffic_light_no_jump_example :
  (0 <= 1)%Z
  /\ rolling_basel_traffic_light clustered_breaches 1
     = Py.Ok [(1%Z, GREEN); (2%Z, GREEN)]
  /\ (GREEN = GREEN -> GREEN <> RED).
Proof.
  assert (H : (0 <= 1)%Z) by lia.
  assert (E : rolling_basel_traffic_light clustered_breaches 1
              = Py.Ok [(1%Z, GREEN); (2%Z, GREEN)]) by reflexivity.
  split; [exact H|]. split; [exact E|].
  exact (proj1 (@rolling_basel_traffic_light_no_jump
                  clustered_breaches 1 _ H E 0%nat 1%Z 2%Z GREEN GREEN
                  eq_refl eq_refl)).
Defined.

Definition monday_returns : Series float := [(0%Z, Fin 0.01)].
Definition tuesday_var : Series float := [(1%Z, Fin 0.02)].

Lemma var_breaches_index_mismatch_example :
  index monday_returns <> index tuesday_var
  /\ exists msg : string,
       var_breaches monday_returns tuesday_var
       = Py.Raise (Py.ValueError msg).
Proof.
  assert (H : index monday_returns <> index tuesday_var)
    by (simpl; discriminate).
  split; [exact H|].
  exact (@var_breaches_index_mismatch monday_returns tuesday_var H).
Defined.

Lemma var_breaches_rate_example :
  index example_returns = index example_var
  /\ exists (breaches : Series bool) (rate : float),
       var_breaches example_returns example_var = Py.Ok (breaches, rate)
       /\ length breaches = length example_returns.
Proof.
  assert (H : index example_returns = index example_var) by reflexivity.
  split; [exact H|].
  destruct (@var_breaches_rate example_returns example_var H)
    as (b & rate & Hb & Hl & _).
  exists b, rate. split; [exact Hb|exact Hl].
Defined.

Definition calm_returns : Series float := [(0%Z, Fin 0.01); (1%Z, Fin 0.02)].
Definition wide_var : Series float := [(0%Z, Fin 0.03); (1%Z, Fin 0.03)].

Lemma backtests_without_breach_example :
  index calm_returns = index wide_var
  /\ (2 <= length calm_returns)%nat
  /\ exists breaches : Series bool,
       var_breaches calm_returns wide_var = Py.Ok (breaches, Fin 0)
       /\ k_LR_stat (kupiec_pof_test (scipy := reference_scipy)
                       breaches (Fin 0.99)) = NaN.
Proof.
  assert (Hi : index calm_returns = index wide_var) by reflexivity.
  assert (Hl : (2 <= length calm_returns)%nat) by (simpl; lia).
  assert (Hn : forall r v : float,
             In (r, v) (combine (values calm_returns) (values wide_var)) ->
             ~ lt r (- v)%float).
  { intros r v [[= <- <-]|[[= <- <-]|[]]]; unfold lt; cbn [Float.neg];
      rewrite ltb_finite; lra. }
  split; [exact Hi|]. split; [exact Hl|].
  destruct (@backtests_without_breach reference_scipy calm_returns wide_var
              (Fin 0.99) Hi Hl Hn) as (b & Hb & Hk & _).
  exists b. split; [exact Hb|exact Hk].
Defined.

Lemma parametric_var_cvar_unsupported_dist_example :
  "cauchy"%string <> "normal"%string
  /\ "cauchy"%string <> "t"%string
  /\ parametric_var_cvar (scipy := reference_scipy)
       calm_returns wide_var (Fin 0.99) "cauchy" None
     = Py.Raise (Py.ValueError "dist must be 'normal' or 't'").
Proof.
  assert (H1 : "cauchy"%string <> "normal"%string) by discriminate.
  assert (H2 : "cauchy"%string <> "t"%string) by discriminate.
  split; [exact H1|]. split; [exact H2|].
  exact (@parametric_var_cvar_unsupported_dist reference_scipy
           calm_returns wide_var (Fin 0.99) "cauchy" None H1 H2).
Defined.

Lemma parametric_var_cvar_alignment_example :
  supported "normal" None
  /\ (exists t : Z, In t (index tuesday_var)
                    /\ ~ In t (index monday_returns))
  /\ parametric_var_cvar (scipy := reference_scipy)
       monday_returns tuesday_var (Fin 0.99) "normal" None
     = Py.Raise Py.KeyError.
Proof.
  assert (Hs : supported "normal" None) by (now left).
  assert (Hm : exists t : Z, In t (index tuesday_var)
                             /\ ~ In t (index monday_returns)).
  { exists 1%Z. split; [now left|]. intros [H|[]]. discriminate H. }
  split; [exact Hs|]. split; [exact Hm|].
  exact (proj2 (@parametric_var_cvar_alignment reference_scipy
                  monday_returns tuesday_var (Fin 0.99) "normal" None Hs) Hm).
Defined.

Lemma parametric_var_cvar_same_index_example :
  supported "normal" None
  /\ index wide_var = index calm_returns
  /\ NoDup (index calm_returns)
  /\ exists var cvar : Series float,
       parametric_var_cvar (scipy := reference_scipy)
         calm_returns wide_var (Fin 0.99) "normal" None
       = Py.Ok (calm_returns, var, cvar).
Proof.
  assert (Hs : supported "normal" None) by (now left).
  assert (Hi : index wide_var = index calm_returns) by reflexivity.
  assert (Hn : NoDup (index calm_returns)).
  { simpl. repeat constructor; simpl; intros H; intuition discriminate. }
  split; [exact Hs|]. split; [exact Hi|]. split; [exact Hn|].
  exact (@parametric_var_cvar_same_index reference_scipy
           calm_returns wide_var (Fin 0.99) "normal" None Hs Hi Hn).
Defined.

Definition two_returns : list (Z * R) := [(0%Z, 0.01); (1%Z, 0.03)].
Definition two_forecasts : list (Z * R) := [(0%Z, 0.02); (1%Z, 0.04)].

Lemma calibrate_volatility_matches_dispersion_example :
  (2 <= length two_returns)%nat
  /\ two_forecasts <> []
  /\ Rsum (map snd two_forecasts) <> 0
  /\ exists out : Series float,
       calibrate_volatility (finite_series two_returns)
                            (finite_series two_forecasts) = Py.Ok out
       /\ mean (values out) = Fin (sample_std (map snd two_returns)).
Proof.
  assert (H1 : (2 <= length two_returns)%nat) by (simpl; lia).
  assert (H2 : two_forecasts <> []) by discriminate.
  assert (H3 : Rsum (map snd two_forecasts) <> 0)
    by (unfold Rsum; simpl; lra).
  split; [exact H1|]. split; [exact H2|]. split; [exact H3|].
  destruct (@calibrate_volatility_matches_dispersion
              two_returns two_forecasts H1 H2 H3) as (out & Ho & _ & Hm).
  exists out. split; [exact Ho|exact Hm].
Defined.

Lemma stress_test_period_statistics_example :
  increasing (map fst two_returns)
  /\ (exists tv : Z * R, In tv two_returns /\ (0 <= fst tv <= 5)%Z)
  /\ (0 < days (stress_test_period (finite_series two_returns) 0 5))%Z.
Proof.
  assert (H1 : increasing (map fst two_returns))
    by (simpl; split; [lia|exact I]).
  assert (H2 : exists tv : Z * R, In tv two_returns /\ (0 <= fst tv <= 5)%Z).
  { exists (0%Z, 0.01). split; [now left|simpl; lia]. }
  split; [exact H1|]. split; [exact H2|].
  destruct (@stress_test_period_statistics two_returns 0 5 H1 H2)
    as (w & _ & _ & _ & _ & Hd & _).
  exact Hd.
Defined.

Definition two_prices : list (Z * R) := [(1%Z, 110)].

Lemma compute_log_returns_positive_prices_example :
  0 < 100
  /\ Forall (fun tv => 0 < snd tv) two_prices
  /\ compute_log_returns (finite_series ((0%Z, 100) :: two_prices))
     = finite_series [(1%Z, ln (110 / 100))].
Proof.
  assert (H1 : 0 < 100) by lra.
  assert (H2 : Forall (fun tv : Z * R => 0 < snd tv) two_prices)
    by (repeat constructor; simpl; lra).
  split; [exact H1|]. split; [exact H2|].
  exact (proj1 (@compute_log_returns_positive_prices 0 100 two_prices H1 H2)).
Defined.

Lemma realized_volatility_finite_example :
  (1 <= 2)%Z
  /\ exists out : list (Z * R),
       realized_volatility (finite_series two_returns) 2
       = Py.Ok (finite_series out)
       /\ length out = 1%nat.
Proof.
  assert (H : (1 <= 2)%Z) by lia.
  split; [exact H|].
  destruct (@realized_volatility_finite two_returns 2 H)
    as (out & Ho & Hl & _).
  exists out. split; [exact Ho|exact Hl].
Defined.

End MoreExamples.

Section WalkForwardExamples.

Open Scope R_scope.

(** A baseline behind the examples: it answers the last target of the
    training window for every test row, and measures the error by the
    mean of the squared differences. *)
Definition persistence_learner : Learner :=
  {| fit_predict := fun _ _ y_train X_test =>
       Py.Ok (map (fun _ => last y_train NaN) X_test);
     mean_squared_error := fun actuals predictions =>
       Py.Ok (mean (map (fun ap => ((fst ap - snd ap) * (fst ap - snd ap))%float)
                        (combine actuals predictions))) |}.

Definition three_rows : Series row :=
  [(0%Z, ([Fin 0.01], Fin 0.02));
   (1%Z, ([Fin 0.02], Fin 0.03));
   (2%Z, ([Fin 0.03], Fin 0.04))].

Lemma walk_forward_ml_forecast_actuals_example :
  (0 <= 1)%Z /\ (0 < 1)%Z
  /\ exists (predictions : list float) (rmse : float),
       walk_forward_ml_forecast (learner := persistence_learner)
         three_rows "rf" 1 1
       = Py.Ok (predictions, [Fin 0.03; Fin 0.04], rmse).
Proof.
  assert (Hw : (0 <= 1)%Z) by lia.
  assert (Hs : (0 < 1)%Z) by lia.
  split; [exact Hw|]. split; [exact Hs|].
  assert (E : exists p a r,
             walk_forward_ml_forecast (learner := persistence_learner)
               three_rows "rf" 1 1 = Py.Ok (p, a, r)).
  { eexists _, _, _. reflexivity. }
  destruct E as (p & a & r & E).
  destruct (@walk_forward_ml_forecast_actuals persistence_learner
              three_rows "rf" 1 1 p a r Hw Hs E) as [Ha _].
  exists p, r. rewrite E, Ha. reflexivity.
Defined.

Lemma walk_forward_ml_forecast_unknown_model_example :
  "svm"%string <> "rf"%string
  /\ "svm"%string <> "xgb"%string
  /\ (0 < 1)%Z
  /\ (1 < Z.of_nat (length three_rows))%Z
  /\ walk_forward_ml_forecast (learner := persistence_learner)
       three_rows "svm" 1 1
     = Py.Raise (Py.ValueError "Invalid model_type").
Proof.
  assert (H1 : "svm"%string <> "rf"%string) by discriminate.
  assert (H2 : "svm"%string <> "xgb"%string) by discriminate.
  assert (Hs : (0 < 1)%Z) by lia.
  assert (Hn : (1 < Z.of_nat (length three_rows))%Z) by (simpl; lia).
  split; [exact H1|]. split; [exact H2|]. split; [exact Hs|].
  split; [exact Hn|].
  exact (proj1 (@walk_forward_ml_forecast_unknown_model persistence_learner
                  three_rows "svm" 1 1 H1 H2 Hs) Hn).
Defined.

Definition constant_volatility : list (Z * R) := [(0%Z, 0.02); (1%Z, 0.02)].

Lemma normal_var_sign_example :
  models_normal reference_scipy reference_normal
  /\ 0 < 0.99 < 1
  /\ Forall (fun tv => 0 < snd tv) constant_volatility
  /\ exists var cvar : list (Z * R),
       parametric_var_cvar (scipy := reference_scipy)
         calm_returns (finite_series constant_volatility) (Fin 0.99)
         "normal" None
       = Py.Ok (calm_returns, finite_series var, finite_series cvar)
       /\ 0 < normal_ppf 0.99
       /\ Forall (fun tc => 0 <= snd tc) cvar
       /\ Forall (fun tv => 0 <= snd tv) var.
Proof.
  assert (Ha : 0 < 0.99 < 1) by lra.
  assert (Hs : Forall (fun tv : Z * R => 0 < snd tv) constant_volatility)
    by (repeat constructor; simpl; lra).
  split; [exact reference_models_normal|]. split; [exact Ha|].
  split; [exact Hs|].
  destruct (@normal_var_sign reference_scipy reference_normal
              calm_returns constant_volatility 0.99 None
              reference_models_normal Ha Hs)
    as (E & (Hz & _) & Hc & Hv).
  eexists _, _. split; [rewrite E; reflexivity|].
  split; [apply Hz; lra|]. split; [exact Hc|].
  apply Forall_impl with (2 := Hv). intros tv (H & _). apply H. lra.
Defined.

Definition low_var : list (Z * R) := [(0%Z, 0.01); (1%Z, 0.02)].
Definition high_var : list (Z * R) := [(0%Z, 0.03); (1%Z, 0.02)].

Lemma var_breaches_monotone_example :
  map fst two_returns = map fst low_var
  /\ map fst two_returns = map fst high_var
  /\ Forall2 (fun v v' => snd v <= snd v') low_var high_var
  /\ exists (b b' : Series bool) (rate rate' : float),
       var_breaches (finite_series two_returns) (finite_series low_var)
       = Py.Ok (b, rate)
       /\ var_breaches (finite_series two_returns) (finite_series high_var)
          = Py.Ok (b', rate')
       /\ (sum_bool (values b') <= sum_bool (values b))%Z.
Proof.
  assert (H1 : map fst two_returns = map fst low_var) by reflexivity.
  assert (H2 : map fst two_returns = map fst high_var) by reflexivity.
  assert (H3 : Forall2 (fun v v' : Z * R => snd v <= snd v') low_var high_var)
    by (repeat constructor; simpl; lra).
  split; [exact H1|]. split; [exact H2|]. split; [exact H3|].
  destruct (@var_breaches_monotone two_returns low_var high_var H1 H2 H3)
    as (b & b' & rate & rate' & Hb & Hb' & _ & Hle).
  exists b, b', rate, rate'. repeat split; assumption.
Defined.

End WalkForwardExamples.

Section NormalTailExamples.

Open Scope R_scope.





End NormalTailExamples.
